(** * fpl-price-changes: the snapshot-delta analyzer (analyze_transfers.py)

    A shallow embedding of the analyzer script: the snapshot selector, the
    delta engine, the ranker, the prediction-log writer and the summary
    projector, followed by the properties of the specification.

    Conventions of the embedding.
    - A pandas [float64] cell is a [spec_float] of the Standard Library at
      binary64 precision; NaN doubles as the missing value, as in pandas.
    - A pandas [int64] cell is a [Z], wrapped to 64 bits after arithmetic.
    - A DataFrame is a list of row records in row order; its index (the
      player id after [set_index("id")]) is a field of the row.
    - The two output files are an explicit state threaded through the run;
      the clock string of [datetime.now] is an input of the run. *)

From Stdlib Require Import ZArith List Bool String Ascii Lia.
From Stdlib Require Import Floats.SpecFloat.
From Stdlib Require Import Sorting.Sorted Sorting.Permutation.
Import ListNotations.

Local Open Scope Z_scope.

(** ** IEEE binary64 cells *)

Module F64.

Definition prec : Z := 53.
Definition emax : Z := 1024.

Definition float := spec_float.

Definition nan : float := S754_nan.
Definition pzero : float := S754_zero false.

Definition add : float -> float -> float := SFadd prec emax.
Definition sub : float -> float -> float := SFsub prec emax.
Definition mul : float -> float -> float := SFmul prec emax.
Definition div : float -> float -> float := SFdiv prec emax.
Definition opp : float -> float := SFopp.
Definition abs : float -> float := SFabs.

Definition eqb : float -> float -> bool := SFeqb.
Definition ltb : float -> float -> bool := SFltb.
Definition leb : float -> float -> bool := SFleb.

Definition isnan (x : float) : bool :=
  match x with S754_nan => true | _ => false end.

(** Conversion of an integer to the nearest double (ties to even), the
    cast numpy applies to an [int64] operand of a float operation. *)
Definition of_Z (z : Z) : float := binary_normalize prec emax z 0 false.

(** Quotient of [m] by [d] rounded to the nearest integer, ties to even. *)
Definition div_half_even (m d : Z) : Z :=
  let q := m / d in
  let r := m mod d in
  match 2 * r ?= d with
  | Lt => q
  | Gt => q + 1
  | Eq => if Z.even q then q else q + 1
  end.

(** [numpy.rint]: the nearest integral double, ties to even; the sign of
    a zero result is the sign of the argument. *)
Definition rint (x : float) : float :=
  match x with
  | S754_finite s m e =>
      if 0 <=? e then x
      else
        let q := div_half_even (Zpos m) (2 ^ (- e)) in
        if q =? 0 then S754_zero s
        else binary_normalize prec emax (if s then - q else q) 0 s
  | _ => x
  end.

(** [Series.round(decimals)] on a float64 column is numpy's
    [round]: multiply by [10^decimals], [rint], divide back; with
    [decimals = 0] it is [rint] alone. *)
Definition round (decimals : nat) (x : float) : float :=
  match decimals with
  | O => rint x
  | _ =>
      let p := of_Z (10 ^ Z.of_nat decimals) in
      div (rint (mul x p)) p
  end.

(** [Series.clip(lower=0)]: cells [>= 0] and missing cells are kept,
    every other cell becomes the bound. *)
Definition clip_lower0 (x : float) : float :=
  if isnan x then x else if leb pzero x then x else pzero.

(** [Series.fillna(0)]. *)
Definition fillna0 (x : float) : float :=
  if isnan x then pzero else x.

End F64.

(** ** Timestamps

    [pd.to_datetime] on the timestamp strings of the store.  The model
    covers the ISO 8601 second-resolution date-times, with either a space
    or a ['T'] between date and time, and fails on every other string
    (pandas accepts further spellings; nothing below depends on a failure).
    The instant is counted in seconds from 0001-01-01 00:00:00; the
    analyzer only uses differences of instants. *)

Module Timestamp.

Definition digit (c : ascii) : option Z :=
  let n := Z.of_N (N_of_ascii c) in
  if (48 <=? n) && (n <=? 57) then Some (n - 48) else None.

Definition is_leap (y : Z) : bool :=
  ((y mod 4 =? 0) && negb (y mod 100 =? 0)) || (y mod 400 =? 0).

Definition days_in_month (y m : Z) : Z :=
  match m with
  | 1 => 31 | 2 => if is_leap y then 29 else 28 | 3 => 31 | 4 => 30
  | 5 => 31 | 6 => 30 | 7 => 31 | 8 => 31 | 9 => 30 | 10 => 31
  | 11 => 30 | 12 => 31
  | _ => 0
  end.

Definition days_before_month (y m : Z) : Z :=
  let l := if is_leap y then 1 else 0 in
  match m with
  | 1 => 0 | 2 => 31 | 3 => 59 + l | 4 => 90 + l | 5 => 120 + l
  | 6 => 151 + l | 7 => 181 + l | 8 => 212 + l | 9 => 243 + l
  | 10 => 273 + l | 11 => 304 + l | 12 => 334 + l
  | _ => 0
  end.

Definition days_before_year (y : Z) : Z :=
  let p := y - 1 in 365 * p + p / 4 - p / 100 + p / 400.

Record fields := mkFields
  { year : Z; month : Z; day : Z; hour : Z; minute : Z; second : Z }.

Definition valid (f : fields) : bool :=
  (1 <=? year f) && (1 <=? month f) && (month f <=? 12)
  && (1 <=? day f) && (day f <=? days_in_month (year f) (month f))
  && (hour f <=? 23) && (minute f <=? 59) && (second f <=? 59).

Definition instant (f : fields) : Z :=
  (days_before_year (year f) + days_before_month (year f) (month f)
   + (day f - 1)) * 86400
  + hour f * 3600 + minute f * 60 + second f.

Definition bind {A B} (o : option A) (k : A -> option B) : option B :=
  match o with Some a => k a | None => None end.

Notation "x <- o ;; k" := (bind o (fun x => k))
  (at level 61, o at next level, right associativity).

Definition num2 (a b : ascii) : option Z :=
  x <- digit a ;; y <- digit b ;; Some (10 * x + y).

Definition num4 (a b c d : ascii) : option Z :=
  x <- num2 a b ;; y <- num2 c d ;; Some (100 * x + y).

(** The six numeric fields and the separator of a 19-character
    date-time, with no calendar check. *)
Definition split (s : string) : option (ascii * fields) :=
  match s with
  | String y1 (String y2 (String y3 (String y4 (String c1
    (String m1 (String m2 (String c2
    (String d1 (String d2 (String sep
    (String h1 (String h2 (String c3
    (String n1 (String n2 (String c4
    (String s1 (String s2 EmptyString)))))))))))))))))) =>
      if Ascii.eqb c1 "-" && Ascii.eqb c2 "-"
         && Ascii.eqb c3 ":" && Ascii.eqb c4 ":"
      then
        y <- num4 y1 y2 y3 y4 ;;
        m <- num2 m1 m2 ;;
        d <- num2 d1 d2 ;;
        h <- num2 h1 h2 ;;
        n <- num2 n1 n2 ;;
        c <- num2 s1 s2 ;;
        Some (sep, mkFields y m d h n c)
      else None
  | _ => None
  end.

Definition to_datetime (s : string) : option Z :=
  p <- split s ;;
  let '(sep, f) := p in
  if (Ascii.eqb sep " " || Ascii.eqb sep "T") && valid f
  then Some (instant f) else None.

(** The store's own format, ["YYYY-MM-DD HH:MM:SS"], of a real date. *)
Definition fixed_format (s : string) : bool :=
  match split s with
  | Some (sep, f) => Ascii.eqb sep " " && valid f
  | None => false
  end.

End Timestamp.

(** ** The snapshot store

    One record per line of [fpl_transfers_log.csv] as [pd.read_csv] returns
    it: the timestamp and the names are strings, the two counters are
    [int64] cells, price and ownership are [float64] cells. *)

Record snapshot := mkSnapshot
  { timestamp : string;
    id : Z;
    first_name : string;
    second_name : string;
    now_cost : F64.float;
    transfers_in_event : Z;
    transfers_out_event : Z;
    selected_by_percent : F64.float }.

Definition frame := list snapshot.

Definition THRESHOLD : Z := 100000.

(** The exceptions a run can end with: the [ValueError] raised when the
    store holds fewer than two snapshots (the specification's
    InsufficientHistory), a timestamp [pd.to_datetime] rejects, and the
    [ValueError] of [reindex] on an axis with duplicate labels. *)
Inductive error :=
| NeedTwoSnapshots
| DateParseError
| DuplicateLabels.

Inductive result (A : Type) :=
| Ok (a : A)
| Raise (e : error).

Arguments Ok {A} a.
Arguments Raise {A} e.

(** ** Snapshot selector: [unique], [sort], the last two *)

(** [Series.unique]: the distinct values in order of first appearance. *)
Fixpoint unique (l : list string) : list string :=
  match l with
  | [] => []
  | x :: r => x :: filter (fun y => negb (String.eqb x y)) (unique r)
  end.

Fixpoint insert_sorted (x : string) (l : list string) : list string :=
  match l with
  | [] => [x]
  | y :: r => if String.leb x y then x :: l else y :: insert_sorted x r
  end.

(** [ndarray.sort] on the array of strings: ascending, by code point. *)
Fixpoint sort (l : list string) : list string :=
  match l with
  | [] => []
  | x :: r => insert_sorted x (sort r)
  end.

Definition latest_times (df : frame) : list string :=
  sort (unique (map timestamp df)).

Definition select_snapshots (df : frame) : result (string * string) :=
  let times := latest_times df in
  let n := List.length times in
  if (n <? 2)%nat then Raise NeedTwoSnapshots
  else Ok (nth (n - 2) times EmptyString, nth (n - 1) times EmptyString).

(** ** Delta engine *)

(** A numeric cell of the merged frame: the counters stay [int64] while
    every row found its partner, and the whole column is [float64] as soon
    as one row did not. *)
Inductive cell :=
| Int (z : Z)
| Float (f : F64.float).

Definition wrap64 (z : Z) : Z := (z + 2 ^ 63) mod 2 ^ 64 - 2 ^ 63.

Definition to_float (c : cell) : F64.float :=
  match c with
  | Int z => F64.of_Z z
  | Float f => f
  end.

Definition cell_sub (a b : cell) : cell :=
  match a, b with
  | Int x, Int y => Int (wrap64 (x - y))
  | _, _ => Float (F64.sub (to_float a) (to_float b))
  end.

Definition slice (df : frame) (t : string) : frame :=
  filter (fun r => String.eqb (timestamp r) t) df.

(** [df2.join(df1, lsuffix="_new", rsuffix="_old")]: the default join is a
    left join on the index of [df2]; rows of [df2] keep their order, a row
    without partner in [df1] gets missing [_old] cells. *)
Definition join (df2 df1 : frame) : list (snapshot * option snapshot) :=
  flat_map
    (fun n =>
       match filter (fun o => id o =? id n) df1 with
       | [] => [(n, None)]
       | partners => map (fun o => (n, Some o)) partners
       end)
    df2.

Definition matched (p : snapshot * option snapshot) : bool :=
  match snd p with Some _ => true | None => false end.

Definition old_cell (int_dtype : bool) (o : option snapshot)
    (col : snapshot -> Z) : cell :=
  match o with
  | Some r => if int_dtype then Int (col r) else Float (F64.of_Z (col r))
  | None => Float F64.nan
  end.

Record delta := mkDelta
  { d_id : Z;
    name : string;
    d_now_cost : F64.float;
    delta_in : cell;
    delta_out : cell;
    net_delta : cell;
    delta_in_per_hr : F64.float;
    delta_out_per_hr : F64.float;
    net_delta_per_hr : F64.float;
    rise_progress : F64.float;
    drop_progress : F64.float }.

Definition progress (x : F64.float) : F64.float :=
  F64.round 2 (F64.div (F64.clip_lower0 x) (F64.of_Z THRESHOLD)).

Definition delta_of (int_dtype : bool) (hours_elapsed : F64.float)
    (p : snapshot * option snapshot) : delta :=
  let '(n, o) := p in
  let din := cell_sub (Int (transfers_in_event n))
                      (old_cell int_dtype o transfers_in_event) in
  let dout := cell_sub (Int (transfers_out_event n))
                       (old_cell int_dtype o transfers_out_event) in
  let net := cell_sub din dout in
  let net_hr := F64.div (to_float net) hours_elapsed in
  {| d_id := id n;
     name := (first_name n ++ " " ++ second_name n)%string;
     d_now_cost := now_cost n;
     delta_in := din;
     delta_out := dout;
     net_delta := net;
     delta_in_per_hr := F64.div (to_float din) hours_elapsed;
     delta_out_per_hr := F64.div (to_float dout) hours_elapsed;
     net_delta_per_hr := net_hr;
     rise_progress := progress net_hr;
     drop_progress := progress (F64.opp net_hr) |}.

(** [(t2_dt - t1_dt).total_seconds() / 3600]. *)
Definition hours_elapsed (t1 t2 : string) : result F64.float :=
  match Timestamp.to_datetime t1, Timestamp.to_datetime t2 with
  | Some a, Some b => Ok (F64.div (F64.of_Z (b - a)) (F64.of_Z 3600))
  | _, _ => Raise DateParseError
  end.

Definition merged (df : frame) (t1 t2 : string) (hours : F64.float)
  : list delta :=
  let j := join (slice df t2) (slice df t1) in
  map (delta_of (forallb matched j) hours) j.

(** ** Ranker *)

Section Ranking.

Context {A : Type}.
Variable key : A -> F64.float.

(** Insertion below the rows with a strictly larger key: among equal
    keys the row inserted last comes first, so that folding from the
    right keeps the original order of ties. *)
Fixpoint insert_desc (x : A) (l : list A) : list A :=
  match l with
  | [] => [x]
  | y :: r =>
      if F64.leb (key y) (key x) then x :: l else y :: insert_desc x r
  end.

Fixpoint sort_desc (l : list A) : list A :=
  match l with
  | [] => []
  | x :: r => insert_desc x (sort_desc r)
  end.

(** [sort_values(ascending=False)]: descending, missing keys last in
    their original order.  Ties are kept in their original order here;
    pandas leaves their order to the sorting kind. *)
Definition sort_values_desc (l : list A) : list A :=
  sort_desc (filter (fun a => negb (F64.isnan (key a))) l)
  ++ filter (fun a => F64.isnan (key a)) l.

(** [nlargest(n, column)] with [keep="first"]: the [n] largest present
    keys in descending order, then rows with a missing key while fewer
    than [n] rows have been taken. *)
Definition nlargest (n : nat) (l : list A) : list A :=
  firstn n (sort_values_desc l).

End Ranking.

Record prediction := mkPrediction
  { p_id : Z;
    p_name : string;
    p_now_cost : F64.float;
    p_net_delta_per_hr : F64.float;
    p_rise_progress : F64.float;
    p_drop_progress : F64.float;
    p_timestamp : string;
    p_type : string }.

Definition top_risers (m : list delta) : list delta :=
  nlargest rise_progress 10 m.

Definition top_droppers (m : list delta) : list delta :=
  nlargest drop_progress 10 m.

(** A row of [top_risers] after the concatenation: the column
    [drop_progress], which only [top_droppers] carries, is missing. *)
Definition riser (ts : string) (d : delta) : prediction :=
  {| p_id := d_id d;
     p_name := name d;
     p_now_cost := d_now_cost d;
     p_net_delta_per_hr := net_delta_per_hr d;
     p_rise_progress := rise_progress d;
     p_drop_progress := F64.nan;
     p_timestamp := ts;
     p_type := "riser" |}.

Definition faller (ts : string) (d : delta) : prediction :=
  {| p_id := d_id d;
     p_name := name d;
     p_now_cost := d_now_cost d;
     p_net_delta_per_hr := net_delta_per_hr d;
     p_rise_progress := F64.nan;
     p_drop_progress := drop_progress d;
     p_timestamp := ts;
     p_type := "faller" |}.

Definition predictions (ts : string) (m : list delta) : list prediction :=
  map (riser ts) (top_risers m) ++ map (faller ts) (top_droppers m).

(** ** Summary projector *)

Record summary_row := mkSummary
  { s_id : Z;
    s_name : string;
    s_price : F64.float;
    s_hourly_change : F64.float;
    s_progress : F64.float;
    s_timestamp : string }.

Definition signed_progress (p : prediction) : F64.float :=
  F64.sub (F64.fillna0 (p_rise_progress p)) (F64.fillna0 (p_drop_progress p)).

Definition project (p : prediction) : summary_row :=
  {| s_id := p_id p;
     s_name := p_name p;
     s_price := p_now_cost p;
     s_hourly_change := p_net_delta_per_hr p;
     s_progress := signed_progress p;
     s_timestamp := p_timestamp p |}.

Fixpoint labels_eqb (a b : list Z) : bool :=
  match a, b with
  | [], [] => true
  | x :: a', y :: b' => (x =? y) && labels_eqb a' b'
  | _, _ => false
  end.

Fixpoint has_duplicates (l : list Z) : bool :=
  match l with
  | [] => false
  | x :: r => existsb (Z.eqb x) r || has_duplicates r
  end.

(** [summary.reindex(target)]: a copy when the target is the index as it
    stands; otherwise the rows are looked up label by label, which pandas
    refuses on an index with duplicate labels. *)
Definition reindex (rows : list summary_row) (target : list Z)
  : result (list summary_row) :=
  if labels_eqb (map s_id rows) target then Ok rows
  else if has_duplicates (map s_id rows) then Raise DuplicateLabels
  else Ok (flat_map (fun l => filter (fun r => s_id r =? l) rows) target).

Definition round_row (r : summary_row) : summary_row :=
  {| s_id := s_id r;
     s_name := s_name r;
     s_price := F64.round 1 (s_price r);
     s_hourly_change := F64.round 0 (s_hourly_change r);
     s_progress := F64.round 2 (s_progress r);
     s_timestamp := s_timestamp r |}.

Definition summary (ps : list prediction) : result (list summary_row) :=
  let rows := map project ps in
  let order :=
    map s_id (sort_values_desc (fun r => F64.abs (s_progress r)) rows) in
  match reindex rows order with
  | Ok sorted => Ok (map round_row (firstn 20 sorted))
  | Raise e => Raise e
  end.

(** ** The run

    The two output files are the state: [None] is a file that does not
    exist, [Some rows] the rows below its header.  The prediction log is
    written before the summary is computed, as in the script. *)

Record files := mkFiles
  { pred_file : option (list prediction);
    summary_file : option (list summary_row) }.

Definition append_predictions (ps : list prediction) (fs : files) : files :=
  {| pred_file :=
       match pred_file fs with
       | None => Some ps
       | Some rows => Some (rows ++ ps)
       end;
     summary_file := summary_file fs |}.

Definition write_summary (rows : list summary_row) (fs : files) : files :=
  {| pred_file := pred_file fs; summary_file := Some rows |}.

Definition run (df : frame) (ts : string) (fs : files)
  : files * result unit :=
  match select_snapshots df with
  | Raise e => (fs, Raise e)
  | Ok (t1, t2) =>
      match hours_elapsed t1 t2 with
      | Raise e => (fs, Raise e)
      | Ok hours =>
          let ps := predictions ts (merged df t1 t2 hours) in
          let fs1 := append_predictions ps fs in
          match summary ps with
          | Raise e => (fs1, Raise e)
          | Ok rows => (write_summary rows fs1, Ok tt)
          end
      end
  end.

Definition rows_of {A} (f : option (list A)) : nat :=
  match f with
  | None => 0%nat
  | Some rows => List.length rows
  end.

(** ** The collector (track_transfers.py)

    One record per entry of [bootstrap['elements']], restricted to the
    columns the collector keeps; the price comes in tenths.  The store
    file is modelled by the rows the analyzer reads back from it, [None]
    while the file does not exist; the clock string is an input.  Ids,
    counters and timestamps come back from the file as they were
    written; what [read_csv] does to the text of the other columns (a
    name such as "NA" is read as a missing value) is not modelled, and
    nothing below is stated about those columns. *)

Record element := mkElement
  { e_id : Z;
    e_first_name : string;
    e_second_name : string;
    e_now_cost : Z;
    e_transfers_in_event : Z;
    e_transfers_out_event : Z;
    e_selected_by_percent : F64.float }.

(** The row written for an element: the timestamp column is added and
    [now_cost] is divided by 10. *)
Definition stamp (ts : string) (e : element) : snapshot :=
  {| timestamp := ts;
     id := e_id e;
     first_name := e_first_name e;
     second_name := e_second_name e;
     now_cost := F64.div (F64.of_Z (e_now_cost e)) (F64.of_Z 10);
     transfers_in_event := e_transfers_in_event e;
     transfers_out_event := e_transfers_out_event e;
     selected_by_percent := e_selected_by_percent e |}.

(** The [KeyError] of the column selection on a frame built from no
    element: such a frame has no column at all. *)
Inductive collector_error :=
| KeyError.

Definition collect (elements : list element) (ts : string)
    (store : option frame) : option frame * option collector_error :=
  match elements with
  | [] => (store, Some KeyError)
  | _ =>
      (Some (match store with
             | None => map (stamp ts) elements
             | Some rows => rows ++ map (stamp ts) elements
             end),
       None)
  end.

(** ** Notions used in the statements *)

(** Not below zero: a zero of either sign, a positive number, or NaN. *)
Definition nonneg (x : F64.float) : Prop :=
  match x with
  | S754_finite true _ _ | S754_infinity true => False
  | _ => True
  end.

(** A prediction record and a summary record with the Timestamp column
    replaced. *)
Definition restamp_prediction (ts : string) (p : prediction) : prediction :=
  {| p_id := p_id p;
     p_name := p_name p;
     p_now_cost := p_now_cost p;
     p_net_delta_per_hr := p_net_delta_per_hr p;
     p_rise_progress := p_rise_progress p;
     p_drop_progress := p_drop_progress p;
     p_timestamp := ts;
     p_type := p_type p |}.

Definition restamp (ts : string) (r : summary_row) : summary_row :=
  {| s_id := s_id r;
     s_name := s_name r;
     s_price := s_price r;
     s_hourly_change := s_hourly_change r;
     s_progress := s_progress r;
     s_timestamp := ts |}.

(** The fourteen digits of a date-time read as one decimal number. *)
Definition stamp_key (f : Timestamp.fields) : Z :=
  ((((Timestamp.year f * 100 + Timestamp.month f) * 100
     + Timestamp.day f) * 100
    + Timestamp.hour f) * 100 + Timestamp.minute f) * 100
  + Timestamp.second f.

(** The instant of a timestamp, 0 where it does not parse. *)
Definition instant_of (s : string) : Z :=
  match Timestamp.to_datetime s with
  | Some a => a
  | None => 0
  end.

Definition not_later (s t : string) : Prop := instant_of s <= instant_of t.

(** The fields read from digits are natural numbers of at most two
    digits (four for the year). *)
Definition natural (f : Timestamp.fields) : Prop :=
  0 <= Timestamp.year f /\ 0 <= Timestamp.month f <= 99
  /\ 0 <= Timestamp.day f <= 99 /\ 0 <= Timestamp.hour f <= 99
  /\ 0 <= Timestamp.minute f <= 99 /\ 0 <= Timestamp.second f <= 99.

(** The order [ndarray.sort] puts strings in. *)
Definition leb_rel (a b : string) : Prop := String.leb a b = true.

(** [ranked key a b]: row [a] may stand before row [b] in a descending
    ranking by [key], missing keys last. *)
Definition ranked {A : Type} (key : A -> F64.float) (a b : A) : Prop :=
  F64.isnan (key b) = true \/ F64.leb (key b) (key a) = true.

(** The invariant of the store: within one timestamp every id occurs
    once. *)
Definition ids_unique_per_timestamp (df : frame) : Prop :=
  forall t, NoDup (map id (slice df t)).

(** Structural equality of two doubles. *)
Definition same_double (x y : F64.float) : bool :=
  match x, y with
  | S754_zero a, S754_zero b => Bool.eqb a b
  | S754_infinity a, S754_infinity b => Bool.eqb a b
  | S754_nan, S754_nan => true
  | S754_finite a m e, S754_finite b n f =>
      Bool.eqb a b && Pos.eqb m n && Z.eqb e f
  | _, _ => false
  end.

(** Two elements as the API lists them. *)
Definition two_elements : list element :=
  [ mkElement 1 "A" "Doe" 55 1000 200 (F64.of_Z 3);
    mkElement 2 "B" "Roe" 120 50 70 (F64.of_Z 40) ].

(** The rows of the store file, none while it does not exist. *)
Definition rows_in (store : option frame) : frame :=
  match store with
  | Some rows => rows
  | None => []
  end.


(** ** Stores used in the examples *)

Definition t_0900 : string := "2025-08-16 09:00:00".
Definition t_1000 : string := "2025-08-16 10:00:00".
Definition t_1000_iso : string := "2025-08-16T10:00:00".

Definition player (t : string) (i : Z) (first : string)
    (tin tout : Z) : snapshot :=
  {| timestamp := t; id := i; first_name := first; second_name := "Doe";
     now_cost := F64.div (F64.of_Z 55) (F64.of_Z 10);
     transfers_in_event := tin; transfers_out_event := tout;
     selected_by_percent := F64.of_Z 3 |}.

(** Entity A one hour apart: 1000 in, 200 out, then 1500 in, 200 out. *)
Definition store_one_hour (first second : string) (cost pct : F64.float)
  : frame :=
  [ mkSnapshot t_0900 1 first second cost 1000 200 pct;
    mkSnapshot t_1000 1 first second cost 1500 200 pct ].

(** A single snapshot. *)
Definition store_single : frame :=
  [ player t_0900 1 "A" 1000 200; player t_0900 2 "B" 50 70 ].

(** Two snapshots with the same counters. *)
Definition store_unchanged : frame :=
  [ player t_0900 1 "A" 1000 200; player t_0900 2 "B" 50 70;
    player t_1000 1 "A" 1000 200; player t_1000 2 "B" 50 70 ].

(** A rises by three thresholds an hour, B falls by two, C rises by one. *)
Definition store_three : frame :=
  [ player t_0900 1 "A" 0 0; player t_0900 2 "B" 0 0;
    player t_0900 3 "C" 0 0;
    player t_1000 1 "A" 300000 0; player t_1000 2 "B" 0 200000;
    player t_1000 3 "C" 100000 0 ].

(** B leaves after the first snapshot, C joins at the second. *)
Definition store_newcomer : frame :=
  [ player t_0900 1 "A" 0 0; player t_0900 2 "B" 0 0;
    player t_1000 1 "A" 10 0; player t_1000 3 "C" 5 0 ].

(** Twenty entities: the first ten gain transfers in, the last ten
    transfers out, each in proportion to its id. *)
Definition store_twenty : frame :=
  let ids := map Z.of_nat (seq 1 20) in
  map (fun i => player t_0900 i "P" 0 0) ids
  ++ map (fun i => player t_1000 i "P"
                     (if i <=? 10 then i * 100000 else 0)
                     (if i <=? 10 then 0 else i * 100000)) ids.


(** The same instant spelled in two ways. *)
Definition store_same_instant : frame :=
  [ player t_1000 1 "A" 1000 200; player t_1000_iso 1 "A" 1500 200 ].

Definition no_files : files := {| pred_file := None; summary_file := None |}.

(** The double nearest to 0.01. *)
Definition hundredth : F64.float := F64.div (F64.of_Z 1) (F64.of_Z 100).

Example of_Z_500 : F64.of_Z 500 = S754_finite false 8796093022208000 (-44).
Proof. vm_compute. reflexivity. Qed.

Example round2_half : F64.round 2 (F64.div (F64.of_Z 500) (F64.of_Z 100000)) = F64.pzero.
Proof. vm_compute. reflexivity. Qed.

Example round2_quarter :
  F64.round 2 (F64.div (F64.of_Z 25000) (F64.of_Z 100000)) = F64.div (F64.of_Z 1) (F64.of_Z 4).
Proof. vm_compute. reflexivity. Qed.

Example to_datetime_epoch :
  Timestamp.to_datetime "1970-01-01 00:00:00" = Some (719162 * 86400).
Proof. vm_compute. reflexivity. Qed.

Example to_datetime_T :
  Timestamp.to_datetime "2025-08-16T09:30:00" = Timestamp.to_datetime "2025-08-16 09:30:00".
Proof. vm_compute. reflexivity. Qed.

Example to_datetime_bad : Timestamp.to_datetime "2025-02-29 09:30:00" = None.
Proof. vm_compute. reflexivity. Qed.

(** * Properties *)

(** ** Lists: sorting and selection keep what they are given *)

Lemma insert_sorted_length x l :
  List.length (insert_sorted x l) = S (List.length l).
Proof.
  induction l as [|y r IH]; simpl; [reflexivity|].
  destruct (String.leb x y); simpl; [reflexivity | now rewrite IH].
Qed.

Lemma sort_length l : List.length (sort l) = List.length l.
Proof.
  induction l as [|x r IH]; simpl; [reflexivity|].
  now rewrite insert_sorted_length, IH.
Qed.

Lemma insert_sorted_In x y l : In y (insert_sorted x l) <-> y = x \/ In y l.
Proof.
  induction l as [|z r IH]; simpl.
  - intuition.
  - destruct (String.leb x z); simpl; rewrite ?IH; intuition.
Qed.

Lemma sort_In y l : In y (sort l) <-> In y l.
Proof.
  induction l as [|x r IH]; simpl; [reflexivity|].
  rewrite insert_sorted_In, IH. intuition.
Qed.

Lemma unique_In y l : In y (unique l) <-> In y l.
Proof.
  induction l as [|x r IH]; simpl; [reflexivity|].
  rewrite filter_In, IH.
  destruct (String.eqb x y) eqn:E.
  - apply String.eqb_eq in E. subst. intuition.
  - apply String.eqb_neq in E. simpl. intuition.
Qed.

Lemma latest_times_In t df :
  In t (latest_times df) <-> In t (map timestamp df).
Proof. unfold latest_times. now rewrite sort_In, unique_In. Qed.

Lemma latest_times_length df :
  List.length (latest_times df) = List.length (unique (map timestamp df)).
Proof. apply sort_length. Qed.

Lemma firstn_subset {A} (n : nat) (x : A) (l : list A) :
  In x (firstn n l) -> In x l.
Proof.
  revert l. induction n as [|n IH]; intros [|y r]; simpl; try tauto.
  intros [H|H]; [now left | right; now apply IH].
Qed.

Section RankingFacts.

Context {A : Type}.
Variable key : A -> F64.float.

Lemma insert_desc_length x l :
  List.length (insert_desc key x l) = S (List.length l).
Proof.
  induction l as [|y r IH]; simpl; [reflexivity|].
  destruct (F64.leb (key y) (key x)); simpl; [reflexivity | now rewrite IH].
Qed.

Lemma sort_desc_length l :
  List.length (sort_desc key l) = List.length l.
Proof.
  induction l as [|x r IH]; simpl; [reflexivity|].
  now rewrite insert_desc_length, IH.
Qed.

Lemma insert_desc_In x y l :
  In y (insert_desc key x l) <-> y = x \/ In y l.
Proof.
  induction l as [|z r IH]; simpl.
  - intuition.
  - destruct (F64.leb (key z) (key x)); simpl; rewrite ?IH; intuition.
Qed.

Lemma sort_desc_In y l : In y (sort_desc key l) <-> In y l.
Proof.
  induction l as [|x r IH]; simpl; [reflexivity|].
  rewrite insert_desc_In, IH. intuition.
Qed.

Lemma filter_split_length (f : A -> bool) l :
  (List.length (filter (fun a => negb (f a)) l)
   + List.length (filter f l) = List.length l)%nat.
Proof.
  induction l as [|x r IH]; simpl; [reflexivity|].
  destruct (f x); simpl; lia.
Qed.

Lemma sort_values_desc_length l :
  List.length (sort_values_desc key l) = List.length l.
Proof.
  unfold sort_values_desc.
  rewrite length_app, sort_desc_length.
  apply filter_split_length.
Qed.

Lemma sort_values_desc_In y l :
  In y (sort_values_desc key l) <-> In y l.
Proof.
  unfold sort_values_desc.
  rewrite in_app_iff, sort_desc_In, !filter_In.
  destruct (F64.isnan (key y)); simpl; intuition congruence.
Qed.

Lemma nlargest_length n l :
  List.length (nlargest key n l) = Nat.min n (List.length l).
Proof.
  unfold nlargest. now rewrite length_firstn, sort_values_desc_length.
Qed.

Lemma nlargest_In n y l : In y (nlargest key n l) -> In y l.
Proof.
  unfold nlargest. intros H.
  apply sort_values_desc_In. eapply firstn_subset; eauto.
Qed.

End RankingFacts.

(** ** C3: fewer than two snapshots *)

(** C3. When the store holds fewer than two distinct timestamps the run
    ends with the "need at least two snapshots" error and both output
    files are exactly as they were: neither created nor modified. *)
Theorem insufficient_history_leaves_files (df : frame) (ts : string) (fs : files) :
  (List.length (unique (map timestamp df)) < 2)%nat ->
  run df ts fs = (fs, Raise NeedTwoSnapshots).
Proof.
  intros H. unfold run, select_snapshots.
  rewrite latest_times_length.
  apply Nat.ltb_lt in H. now rewrite H.
Qed.

(** ** The join *)

Lemma join_In (n : snapshot) (o : option snapshot) (df2 df1 : frame) :
  In (n, o) (join df2 df1) ->
  In n df2 /\
  match o with
  | Some r => In r df1 /\ id r = id n
  | None => forall r, In r df1 -> id r <> id n
  end.
Proof.
  unfold join. rewrite in_flat_map. intros (m & Hm & H).
  destruct (filter (fun o0 => id o0 =? id m) df1) as [|r0 rs] eqn:E.
  - destruct H as [H|[]]. inversion H; subst. split; [assumption|].
    intros r Hr Heq.
    assert (Hin : In r (filter (fun o0 => id o0 =? id n) df1))
      by (apply filter_In; split; [assumption | now apply Z.eqb_eq]).
    rewrite E in Hin. contradiction.
  - apply in_map_iff in H. destruct H as (r & Hr & Hin).
    inversion Hr; subst. split; [assumption|].
    rewrite <- E in Hin. apply filter_In in Hin.
    destruct Hin as [Hin Heq]. apply Z.eqb_eq in Heq. now split.
Qed.

Lemma merged_In (d : delta) (df : frame) (t1 t2 : string) (h : F64.float) :
  In d (merged df t1 t2 h) ->
  exists p,
    In p (join (slice df t2) (slice df t1)) /\
    d = delta_of (forallb matched (join (slice df t2) (slice df t1))) h p.
Proof.
  unfold merged. rewrite in_map_iff. intros (p & Hd & Hp). eauto.
Qed.

Lemma delta_of_id b h n o : d_id (delta_of b h (n, o)) = id n.
Proof. reflexivity. Qed.

Lemma delta_of_rise b h p :
  rise_progress (delta_of b h p) = progress (net_delta_per_hr (delta_of b h p)).
Proof. destruct p. reflexivity. Qed.

Lemma delta_of_drop b h p :
  drop_progress (delta_of b h p)
  = progress (F64.opp (net_delta_per_hr (delta_of b h p))).
Proof. destruct p. reflexivity. Qed.

(** ** Progress scores *)

Lemma clip_negative x :
  F64.ltb x F64.pzero = true -> F64.clip_lower0 x = F64.pzero.
Proof.
  destruct x as [s|s| |s m e]; try destruct s; cbv; congruence.
Qed.

Lemma opp_positive x :
  F64.ltb F64.pzero x = true -> F64.ltb (F64.opp x) F64.pzero = true.
Proof.
  destruct x as [s|s| |s m e]; try destruct s; cbv; congruence.
Qed.

Lemma progress_zero_bound : F64.round 2 (F64.div F64.pzero (F64.of_Z THRESHOLD)) = F64.pzero.
Proof. vm_compute. reflexivity. Qed.

Lemma progress_negative x :
  F64.ltb x F64.pzero = true -> progress x = F64.pzero.
Proof.
  intros H. unfold progress. rewrite (clip_negative x H).
  apply progress_zero_bound.
Qed.

Lemma progress_of_zero s :
  F64.eqb (progress (S754_zero s)) F64.pzero = true.
Proof. destruct s; vm_compute; reflexivity. Qed.

Lemma progress_exclusive x :
  F64.isnan x = false ->
  F64.eqb (progress x) F64.pzero = true
  \/ F64.eqb (progress (F64.opp x)) F64.pzero = true.
Proof.
  intros Hn. destruct x as [s|s| |s m e]; try discriminate.
  - left. apply progress_of_zero.
  - destruct s.
    + left. now rewrite progress_negative.
    + right. now rewrite progress_negative.
  - destruct s.
    + left. now rewrite progress_negative.
    + right. now rewrite progress_negative.
Qed.

(** ** C4: the two scores exclude each other *)

Lemma progress_of_nan : progress F64.nan = F64.nan.
Proof. vm_compute. reflexivity. Qed.

(** C4 as stated fails: entity 3 of the newcomer store has no partner in
    the older snapshot, its hourly net rate is missing and so are both its
    scores; neither of them equals 0. *)
Lemma missing_rate_has_no_zero_score :
  ~ (forall d,
       In d (merged store_newcomer t_0900 t_1000 (F64.of_Z 1)) ->
       F64.eqb (rise_progress d) F64.pzero = true
       \/ F64.eqb (drop_progress d) F64.pzero = true).
Proof.
  intros H.
  assert (Hin : In (delta_of false (F64.of_Z 1) (player t_1000 3 "C" 5 0, None))
                   (merged store_newcomer t_0900 t_1000 (F64.of_Z 1)))
    by (vm_compute; right; left; reflexivity).
  destruct (H _ Hin) as [H1|H1]; vm_compute in H1; discriminate.
Qed.

(** C4, amended. For every delta record of the merged frame: a positive
    hourly net rate gives a drop progress equal to 0 and a negative one a
    rise progress equal to 0; whenever the rate is a number at least one
    of the two scores equals 0, and when the rate is missing (NaN) both
    scores are missing.  Equality is that of doubles, under which [-0.0]
    equals [0]. *)
Theorem progress_mutually_exclusive
    (df : frame) (t1 t2 : string) (h : F64.float) (d : delta) :
  In d (merged df t1 t2 h) ->
  (F64.ltb F64.pzero (net_delta_per_hr d) = true ->
   F64.eqb (drop_progress d) F64.pzero = true)
  /\ (F64.ltb (net_delta_per_hr d) F64.pzero = true ->
      F64.eqb (rise_progress d) F64.pzero = true)
  /\ (F64.isnan (net_delta_per_hr d) = false ->
      F64.eqb (rise_progress d) F64.pzero = true
      \/ F64.eqb (drop_progress d) F64.pzero = true)
  /\ (F64.isnan (net_delta_per_hr d) = true ->
      F64.isnan (rise_progress d) = true
      /\ F64.isnan (drop_progress d) = true).
Proof.
  intros Hd. apply merged_In in Hd. destruct Hd as (p & _ & ->).
  rewrite delta_of_rise, delta_of_drop.
  split; [|split; [|split]].
  - intros H. now rewrite (progress_negative _ (opp_positive _ H)).
  - intros H. now rewrite (progress_negative _ H).
  - apply progress_exclusive.
  - intros H.
    destruct (net_delta_per_hr _) as [s|s| |s m e]; try discriminate.
    change (F64.opp S754_nan) with F64.nan.
    change S754_nan with F64.nan. rewrite progress_of_nan. now split.
Qed.

Lemma progress_mutually_exclusive_witness :
  F64.eqb
    (drop_progress
       (delta_of true (F64.of_Z 1)
          (player t_1000 1 "A" 300000 0, Some (player t_0900 1 "A" 0 0))))
    F64.pzero = true.
Proof.
  refine (proj1 (progress_mutually_exclusive store_three t_0900 t_1000
                   (F64.of_Z 1) _ _) _).
  - vm_compute. left. reflexivity.
  - vm_compute. reflexivity.
Defined.

(** ** C5: unchanged counters *)


Lemma div_zero_positive h :
  F64.ltb F64.pzero h = true -> F64.div F64.pzero h = F64.pzero.
Proof.
  destruct h as [s|s| |s m e]; try destruct s; cbv; congruence.
Qed.

Lemma all_matched (df2 df1 : frame) :
  (forall n, In n df2 -> exists o, In o df1 /\ id o = id n) ->
  forallb matched (join df2 df1) = true.
Proof.
  intros H. apply forallb_forall. intros [n o] Hp.
  destruct (join_In _ _ _ _ Hp) as [Hn Ho].
  destruct o as [r|]; [reflexivity|].
  destruct (H n Hn) as (r & Hr & Heq). now elim (Ho r Hr).
Qed.

(** The hours elapsed are never NaN: rounding a mantissa that is not
    negative gives a zero, a finite number or an infinity. *)














Lemma insufficient_history_leaves_files_witness :
  run store_single "2025-08-16 11:00:00" no_files
  = (no_files, Raise NeedTwoSnapshots).
Proof.
  apply insufficient_history_leaves_files. simpl. lia.
Defined.

(** ** C8: entity A, one hour apart *)

(** C8 as stated fails: on the store of the scenario the rise progress of
    A is not the double 0.01. *)
Lemma one_hour_rise_progress_is_not_a_hundredth :
  ~ (forall d,
       In d (merged (store_one_hour "A" "Doe" (F64.of_Z 5) (F64.of_Z 3))
               t_0900 t_1000 (F64.of_Z 1)) ->
       F64.eqb (rise_progress d) hundredth = true).
Proof.
  intros H.
  specialize (H _ (or_introl eq_refl)).
  vm_compute in H. discriminate.
Qed.

(** C8, amended. On the store where A has 1000 in and 200 out at 09:00 and
    1500 in and 200 out at 10:00, the selector picks the two timestamps,
    one hour elapses, and the single delta record has [delta_in = 500],
    [delta_out = 0], [net_delta = 500], an hourly net rate of 500.0, a
    drop progress of 0 and a rise progress of 0.0: 500/100000 = 0.005 lies
    halfway between 0.00 and 0.01 and [round(2)] takes the even side. *)
Theorem one_hour_scenario (first second : string) (cost pct : F64.float) :
  let df := store_one_hour first second cost pct in
  select_snapshots df = Ok (t_0900, t_1000)
  /\ hours_elapsed t_0900 t_1000 = Ok (F64.of_Z 1)
  /\ exists d,
       merged df t_0900 t_1000 (F64.of_Z 1) = [d]
       /\ delta_in d = Int 500 /\ delta_out d = Int 0
       /\ net_delta d = Int 500
       /\ net_delta_per_hr d = F64.of_Z 500
       /\ rise_progress d = F64.pzero
       /\ F64.eqb (drop_progress d) F64.pzero = true.
Proof.
  cbv zeta. split; [vm_compute; reflexivity|].
  split; [vm_compute; reflexivity|].
  eexists. split; [reflexivity|].
  repeat split; vm_compute; reflexivity.
Qed.

(** ** Progress scores are never negative *)

Lemma binary_round_aux_nonneg m e l :
  nonneg (binary_round_aux F64.prec F64.emax false m e l).
Proof.
  unfold binary_round_aux.
  destruct (shr_fexp _ _ m e l) as [mrs e1].
  destruct (shr_fexp _ _ _ e1 loc_Exact) as [mrs2 e2].
  destruct (shr_m mrs2); simpl; try exact I.
  destruct (e2 <=? _); exact I.
Qed.

Lemma of_Z_positive_nonneg p : nonneg (F64.of_Z (Zpos p)).
Proof.
  unfold F64.of_Z, binary_normalize, binary_round.
  destruct (shl_align _ _ _) as [mz ez].
  apply binary_round_aux_nonneg.
Qed.

Lemma div_nonneg x m e :
  nonneg x -> nonneg (F64.div x (S754_finite false m e)).
Proof.
  destruct x as [s|s| |s mx ex]; try destruct s; simpl; try tauto.
  intros _.
  destruct (SFdiv_core_binary _ _ _ _ _ _) as [[mz ez] lz].
  apply binary_round_aux_nonneg.
Qed.

Lemma mul_nonneg x m e :
  nonneg x -> nonneg (F64.mul x (S754_finite false m e)).
Proof.
  destruct x as [s|s| |s mx ex]; try destruct s; simpl; try tauto.
  intros _. apply binary_round_aux_nonneg.
Qed.

Lemma div_half_even_nonneg m d : 0 <= m -> 0 < d -> 0 <= F64.div_half_even m d.
Proof.
  intros Hm Hd. unfold F64.div_half_even.
  pose proof (Z.div_pos m d Hm Hd).
  destruct (2 * (m mod d) ?= d); [destruct (Z.even _)| |]; lia.
Qed.

Lemma rint_nonneg x : nonneg x -> nonneg (F64.rint x).
Proof.
  destruct x as [s|s| |s m e]; try destruct s; simpl; try tauto.
  intros _. destruct (0 <=? e) eqn:He; [exact I|].
  apply Z.leb_gt in He.
  assert (Hq : 0 <= F64.div_half_even (Z.pos m) (2 ^ (- e))).
  { apply div_half_even_nonneg; [lia|]. apply Z.pow_pos_nonneg; lia. }
  destruct (F64.div_half_even (Z.pos m) (2 ^ (- e))) as [|q|q]; simpl.
  - exact I.
  - apply (of_Z_positive_nonneg q).
  - lia.
Qed.

Lemma clip_nonneg x : nonneg (F64.clip_lower0 x).
Proof. destruct x as [s|s| |s m e]; try destruct s; exact I. Qed.

Lemma round2_nonneg x : nonneg x -> nonneg (F64.round 2 x).
Proof.
  intros H. unfold F64.round.
  change (F64.of_Z (10 ^ Z.of_nat 2))
    with (S754_finite false 7036874417766400 (-46)).
  now apply div_nonneg, rint_nonneg, mul_nonneg.
Qed.

Lemma progress_nonneg x : nonneg (progress x).
Proof.
  unfold progress. apply round2_nonneg.
  change (F64.of_Z THRESHOLD) with (S754_finite false 6871947673600000 (-36)).
  apply div_nonneg, clip_nonneg.
Qed.

Lemma nonneg_cases x :
  nonneg x ->
  F64.ltb F64.pzero x = true \/ F64.eqb x F64.pzero = true
  \/ F64.isnan x = true.
Proof.
  destruct x as [s|s| |s m e]; try destruct s; simpl; try tauto;
    intros _; cbv; tauto.
Qed.

(** ** C10: the two top-10 lists are always filled *)

(** C10 as stated fails: in the store where C joins at the second
    snapshot no record has a positive rise progress, and the riser list
    is filled with a record whose rise progress is not 0 (it is missing). *)
Lemma padding_is_not_always_zero :
  ~ (forall d,
       In d (top_risers (merged store_newcomer t_0900 t_1000 (F64.of_Z 1))) ->
       F64.ltb F64.pzero (rise_progress d) = true
       \/ F64.eqb (rise_progress d) F64.pzero = true).
Proof.
  intros H.
  assert (Hin : In (delta_of false (F64.of_Z 1) (player t_1000 3 "C" 5 0, None))
                   (top_risers (merged store_newcomer t_0900 t_1000 (F64.of_Z 1))))
    by (vm_compute; right; left; reflexivity).
  destruct (H _ Hin) as [H1|H1]; vm_compute in H1; discriminate.
Qed.

(** C10, amended. Both lists hold min(10, number of rows of the merged
    frame) records whatever the scores are.  Every record of the riser
    list has a rise progress that is positive, equal to 0, or missing
    (NaN, for a row without partner or without a defined rate), and the
    faller list likewise for the drop progress.  One entity can sit in
    both lists with both scores equal to 0: entity 1 of the unchanged
    store does. *)
Theorem top_lists_are_filled (df : frame) (t1 t2 : string) (h : F64.float) :
  let m := merged df t1 t2 h in
  List.length (top_risers m) = Nat.min 10 (List.length m)
  /\ List.length (top_droppers m) = Nat.min 10 (List.length m)
  /\ (forall d, In d (top_risers m) ->
        F64.ltb F64.pzero (rise_progress d) = true
        \/ F64.eqb (rise_progress d) F64.pzero = true
        \/ F64.isnan (rise_progress d) = true)
  /\ (forall d, In d (top_droppers m) ->
        F64.ltb F64.pzero (drop_progress d) = true
        \/ F64.eqb (drop_progress d) F64.pzero = true
        \/ F64.isnan (drop_progress d) = true)
  /\ (exists d,
        let m0 := merged store_unchanged t_0900 t_1000 (F64.of_Z 1) in
        In d (top_risers m0) /\ In d (top_droppers m0)
        /\ F64.eqb (rise_progress d) F64.pzero = true
        /\ F64.eqb (drop_progress d) F64.pzero = true).
Proof.
  cbv zeta. split; [apply nlargest_length|].
  split; [apply nlargest_length|].
  split; [|split].
  - intros d Hd. apply nlargest_In, merged_In in Hd.
    destruct Hd as (p & _ & ->).
    rewrite delta_of_rise. apply nonneg_cases, progress_nonneg.
  - intros d Hd. apply nlargest_In, merged_In in Hd.
    destruct Hd as (p & _ & ->).
    rewrite delta_of_drop. apply nonneg_cases, progress_nonneg.
  - exists (delta_of true (F64.of_Z 1)
              (player t_1000 1 "A" 1000 200, Some (player t_0900 1 "A" 1000 200))).
    cbv zeta.
    split; [vm_compute; left; reflexivity|].
    split; [vm_compute; left; reflexivity|].
    split; vm_compute; reflexivity.
Qed.

(** ** C1: which entities get a delta record *)

Lemma filter_id_unique (k : Z) (l : frame) :
  NoDup (map id l) ->
  filter (fun o => id o =? k) l = []
  \/ exists r, filter (fun o => id o =? k) l = [r].
Proof.
  induction l as [|x r IH]; simpl; intros Hnd; [now left|].
  inversion Hnd as [|? ? Hx Hr]; subst.
  destruct (id x =? k) eqn:E.
  - right. exists x. f_equal.
    apply Z.eqb_eq in E.
    destruct (filter (fun o => id o =? k) r) as [|y ys] eqn:F; [reflexivity|].
    exfalso. apply Hx.
    assert (Hy : In y (filter (fun o => id o =? k) r)) by (rewrite F; now left).
    apply filter_In in Hy. destruct Hy as [Hy Hk].
    apply Z.eqb_eq in Hk. rewrite E, <- Hk. now apply in_map.
  - now apply IH.
Qed.

Lemma join_one_per_row (df2 df1 : frame) :
  NoDup (map id df1) -> map fst (join df2 df1) = df2.
Proof.
  intros Hnd. induction df2 as [|n r IH]; simpl; [reflexivity|].
  rewrite map_app. fold (join r df1). rewrite IH. clear IH.
  destruct (filter_id_unique (id n) df1 Hnd) as [->|(x & ->)]; reflexivity.
Qed.

Lemma merged_ids (df : frame) (t1 t2 : string) (h : F64.float) :
  map d_id (merged df t1 t2 h)
  = map id (map fst (join (slice df t2) (slice df t1))).
Proof.
  unfold merged. rewrite !map_map. apply map_ext.
  intros [n o]. reflexivity.
Qed.

Lemma merged_id_is_new (df : frame) (t1 t2 : string) (h : F64.float) d :
  In d (merged df t1 t2 h) -> In (d_id d) (map id (slice df t2)).
Proof.
  intros Hd. apply merged_In in Hd. destruct Hd as ([n o] & Hp & ->).
  apply join_In in Hp. rewrite delta_of_id. apply in_map, Hp.
Qed.

Lemma predictions_In ts m p :
  In p (predictions ts m) -> exists d, In d m /\ p_id p = d_id d.
Proof.
  unfold predictions. rewrite in_app_iff, !in_map_iff.
  intros [(d & <- & Hd)|(d & <- & Hd)]; exists d;
    (split; [eapply nlargest_In; eassumption | reflexivity]).
Qed.

Lemma reindex_In rows target sorted r :
  reindex rows target = Ok sorted -> In r sorted -> In r rows.
Proof.
  unfold reindex.
  destruct (labels_eqb _ _); [intros [= <-]; tauto|].
  destruct (has_duplicates _); [discriminate|].
  intros [= <-]. rewrite in_flat_map. intros (l & _ & H).
  now apply filter_In in H.
Qed.

Lemma summary_In ps rows r :
  summary ps = Ok rows -> In r rows ->
  exists p, In p ps /\ s_id r = p_id p.
Proof.
  unfold summary.
  destruct (reindex _ _) as [sorted|e] eqn:E; [|discriminate].
  intros [= <-]. rewrite in_map_iff. intros (r0 & <- & Hr).
  apply (firstn_subset 20) in Hr.
  apply (reindex_In _ _ _ _ E) in Hr.
  apply in_map_iff in Hr. destruct Hr as (p & <- & Hp).
  exists p. now split.
Qed.

Lemma join_keeps_unpaired (n : snapshot) (df2 df1 : frame) :
  In n df2 -> (forall r, In r df1 -> id r <> id n) ->
  In (n, None) (join df2 df1).
Proof.
  intros Hn Hno. unfold join. apply in_flat_map. exists n. split; [assumption|].
  destruct (filter (fun o => id o =? id n) df1) as [|r rs] eqn:E.
  - now left.
  - exfalso. assert (Hr : In r (filter (fun o => id o =? id n) df1))
      by (rewrite E; now left).
    apply filter_In in Hr. destruct Hr as [Hr Hk].
    apply Z.eqb_eq in Hk. exact (Hno r Hr Hk).
Qed.

Lemma sub_nan_r x : F64.sub x F64.nan = F64.nan.
Proof. destruct x as [s|s| |s m e]; reflexivity. Qed.

(** C1 as stated fails: entity 3 is absent from the older snapshot of the
    newcomer store and still gets a delta record. *)
Lemma newcomer_gets_a_delta_record :
  ~ (forall d,
       In d (merged store_newcomer t_0900 t_1000 (F64.of_Z 1)) ->
       In (d_id d) (map id (slice store_newcomer t_0900))
       /\ In (d_id d) (map id (slice store_newcomer t_1000))).
Proof.
  intros H.
  assert (Hin : In (delta_of false (F64.of_Z 1) (player t_1000 3 "C" 5 0, None))
                   (merged store_newcomer t_0900 t_1000 (F64.of_Z 1)))
    by (vm_compute; right; left; reflexivity).
  destruct (H _ Hin) as [H1 _]. vm_compute in H1.
  destruct H1 as [H1|[H1|[]]]; discriminate.
Qed.

(** C1, amended. The join is a left join on the newer snapshot.  When ids
    are unique within the older snapshot there is exactly one delta record
    per row of the newer snapshot, in the same order.  Every delta,
    prediction and summary record carries the id of a row of the newer
    snapshot, so an entity present at [t_old] and absent at [t_new] never
    appears, and no error is raised for it.  An entity present at [t_new]
    and absent at [t_old] is kept, with a missing net delta. *)
Theorem delta_records_follow_new_snapshot
    (df : frame) (t1 t2 ts : string) (h : F64.float) :
  let m := merged df t1 t2 h in
  (NoDup (map id (slice df t1)) -> map d_id m = map id (slice df t2))
  /\ (forall d, In d m -> In (d_id d) (map id (slice df t2)))
  /\ (forall p, In p (predictions ts m) ->
                In (p_id p) (map id (slice df t2)))
  /\ (forall rows r, summary (predictions ts m) = Ok rows -> In r rows ->
                     In (s_id r) (map id (slice df t2)))
  /\ (forall n, In n (slice df t2) ->
                (forall r, In r (slice df t1) -> id r <> id n) ->
                exists d, In d m /\ d_id d = id n
                          /\ net_delta d = Float F64.nan).
Proof.
  cbv zeta. split; [|split; [|split; [|split]]].
  - intros Hnd. now rewrite merged_ids, join_one_per_row.
  - apply merged_id_is_new.
  - intros p Hp. apply predictions_In in Hp. destruct Hp as (d & Hd & ->).
    eapply merged_id_is_new; eassumption.
  - intros rows r Hs Hr.
    destruct (summary_In _ _ _ Hs Hr) as (p & Hp & ->).
    apply predictions_In in Hp. destruct Hp as (d & Hd & ->).
    eapply merged_id_is_new; eassumption.
  - intros n Hn Hno.
    pose proof (join_keeps_unpaired n _ _ Hn Hno) as Hj.
    exists (delta_of (forallb matched (join (slice df t2) (slice df t1))) h
                     (n, None)).
    split; [unfold merged; now apply in_map|].
    split; [reflexivity|].
    unfold delta_of, old_cell.
    cbn [net_delta cell_sub to_float].
    now rewrite !sub_nan_r.
Qed.

Lemma delta_records_follow_new_snapshot_witness :
  map d_id (merged store_newcomer t_0900 t_1000 (F64.of_Z 1)) = [1; 3].
Proof.
  refine (proj1 (delta_records_follow_new_snapshot store_newcomer
                   t_0900 t_1000 t_1000 (F64.of_Z 1)) _).
  vm_compute. repeat constructor; simpl; intuition discriminate.
Defined.

(** ** C7: the summary of a run *)

Lemma has_duplicates_NoDup (l : list Z) :
  has_duplicates l = false -> NoDup l.
Proof.
  induction l as [|x r IH]; simpl; intros H; [constructor|].
  apply orb_false_iff in H. destruct H as [Hx Hr].
  constructor; [|now apply IH].
  intros Hin.
  assert (existsb (Z.eqb x) r = true)
    by (apply existsb_exists; exists x; split; [assumption | apply Z.eqb_refl]).
  congruence.
Qed.

Lemma lookup_unique_label (rows : list summary_row) (x : summary_row) :
  NoDup (map s_id rows) -> In x rows ->
  filter (fun r => s_id r =? s_id x) rows = [x].
Proof.
  induction rows as [|y r IH]; simpl; intros Hnd Hx; [contradiction|].
  inversion Hnd as [|? ? Hy Hr]; subst.
  destruct Hx as [->|Hx].
  - rewrite Z.eqb_refl. f_equal.
    destruct (filter (fun r0 => s_id r0 =? s_id x) r) as [|z zs] eqn:F;
      [reflexivity|].
    exfalso. apply Hy.
    assert (Hz : In z (filter (fun r0 => s_id r0 =? s_id x) r))
      by (rewrite F; now left).
    apply filter_In in Hz. destruct Hz as [Hz Hk].
    apply Z.eqb_eq in Hk. rewrite <- Hk. now apply in_map.
  - destruct (s_id y =? s_id x) eqn:E.
    + exfalso. apply Hy. apply Z.eqb_eq in E. rewrite E. now apply in_map.
    + now apply IH.
Qed.

Lemma lookup_all (rows l : list summary_row) :
  NoDup (map s_id rows) -> (forall x, In x l -> In x rows) ->
  flat_map (fun k => filter (fun r => s_id r =? k) rows) (map s_id l) = l.
Proof.
  intros Hnd. induction l as [|x r IH]; simpl; intros Hin; [reflexivity|].
  rewrite (lookup_unique_label rows x Hnd) by (apply Hin; now left).
  simpl. f_equal. apply IH. intros y Hy. apply Hin. now right.
Qed.



(** C7 fails on the code. On the store where A and C rise and B falls,
    each entity enters both top lists; the six prediction records are
    appended to the log, then [reindex] raises on the duplicate ids and no
    summary file is written.  The largest score is A's, the second
    largest B's, while the second record of the log is C's: the sorted
    labels differ from the index whatever the order of equal scores. *)
Theorem summary_missing_when_lists_share_entities (ts : string) :
  exists ps,
    run store_three ts no_files
    = ({| pred_file := Some ps; summary_file := None |}, Raise DuplicateLabels)
    /\ List.length ps = 6%nat
    /\ map p_id ps = [1; 3; 2; 2; 1; 3]
    /\ map (fun p => F64.abs (signed_progress p)) ps
       = [F64.of_Z 3; F64.of_Z 1; F64.pzero; F64.of_Z 2; F64.pzero; F64.pzero].
Proof.
  eexists. split; [vm_compute; reflexivity|].
  repeat split; vm_compute; reflexivity.
Qed.

(** ** C6: two runs over the same store *)

Lemma predictions_restamp ts1 ts2 m :
  predictions ts2 m = map (restamp_prediction ts2) (predictions ts1 m).
Proof.
  unfold predictions. rewrite map_app, !map_map. reflexivity.
Qed.

Section MapCommutes.

Context {A : Type}.
Variables (key : A -> F64.float) (f : A -> A).
Hypothesis key_f : forall a, key (f a) = key a.

Lemma insert_desc_map x l :
  insert_desc key (f x) (map f l) = map f (insert_desc key x l).
Proof.
  induction l as [|y r IH]; simpl; [reflexivity|].
  rewrite !key_f. destruct (F64.leb (key y) (key x)); simpl;
    [reflexivity | now rewrite IH].
Qed.

Lemma sort_desc_map l : sort_desc key (map f l) = map f (sort_desc key l).
Proof.
  induction l as [|x r IH]; simpl; [reflexivity|].
  now rewrite IH, insert_desc_map.
Qed.

Lemma filter_map_commute (g : A -> bool) l :
  (forall a, g (f a) = g a) ->
  filter g (map f l) = map f (filter g l).
Proof.
  intros Hg. induction l as [|x r IH]; simpl; [reflexivity|].
  rewrite Hg. destruct (g x); simpl; now rewrite IH.
Qed.

Lemma sort_values_desc_map l :
  sort_values_desc key (map f l) = map f (sort_values_desc key l).
Proof.
  unfold sort_values_desc.
  rewrite map_app, <- sort_desc_map.
  rewrite !filter_map_commute; [reflexivity| |]; intros a; now rewrite key_f.
Qed.

End MapCommutes.

Lemma reindex_restamp ts rows target :
  reindex (map (restamp ts) rows) target
  = match reindex rows target with
    | Ok sorted => Ok (map (restamp ts) sorted)
    | Raise e => Raise e
    end.
Proof.
  unfold reindex. rewrite map_map. cbn [restamp s_id].
  destruct (labels_eqb _ _); [reflexivity|].
  destruct (has_duplicates _); [reflexivity|].
  f_equal. induction target as [|k r IH]; simpl; [reflexivity|].
  rewrite map_app, IH. f_equal.
  now rewrite filter_map_commute.
Qed.

Lemma summary_restamp ts ps :
  summary (map (restamp_prediction ts) ps)
  = match summary ps with
    | Ok rows => Ok (map (restamp ts) rows)
    | Raise e => Raise e
    end.
Proof.
  unfold summary.
  assert (Hp : map project (map (restamp_prediction ts) ps)
               = map (restamp ts) (map project ps))
    by (rewrite !map_map; reflexivity).
  rewrite Hp, sort_values_desc_map by reflexivity.
  set (order := sort_values_desc _ (map project ps)).
  rewrite (map_map (restamp ts) s_id order). cbn [restamp s_id].
  rewrite reindex_restamp.
  destruct (reindex _ _) as [sorted|e]; [|reflexivity].
  f_equal. rewrite firstn_map, !map_map. reflexivity.
Qed.

Lemma predictions_length ts m :
  List.length (predictions ts m) = (2 * Nat.min 10 (List.length m))%nat.
Proof.
  unfold predictions, top_risers, top_droppers.
  rewrite length_app, !length_map, !nlargest_length. lia.
Qed.

(** C6 as stated fails: on the one-entity store, two runs one minute
    apart write different summaries, and each run adds 2 rows to the
    prediction log, not 20. *)
Lemma two_runs_differ_and_add_two_rows :
  let df := store_one_hour "A" "Doe" (F64.of_Z 5) (F64.of_Z 3) in
  let r1 := run df "2025-08-16 10:05:00" no_files in
  let r2 := run df "2025-08-16 10:06:00" (fst r1) in
  ~ (summary_file (fst r1) = summary_file (fst r2)
     /\ rows_of (pred_file (fst r1)) = 20%nat
     /\ rows_of (pred_file (fst r2)) = 40%nat)
  /\ summary_file (fst r1) <> summary_file (fst r2)
  /\ rows_of (pred_file (fst r1)) = 2%nat
  /\ rows_of (pred_file (fst r2)) = 4%nat.
Proof.
  cbv zeta.
  assert (Hs : summary_file (fst (run (store_one_hour "A" "Doe" (F64.of_Z 5) (F64.of_Z 3))
                                     "2025-08-16 10:05:00" no_files))
               <> summary_file (fst (run (store_one_hour "A" "Doe" (F64.of_Z 5) (F64.of_Z 3))
                                     "2025-08-16 10:06:00"
                                     (fst (run (store_one_hour "A" "Doe" (F64.of_Z 5) (F64.of_Z 3))
                                             "2025-08-16 10:05:00" no_files)))))
    by (vm_compute; discriminate).
  split; [intros [H _]; now apply Hs|].
  split; [exact Hs|].
  split; vm_compute; reflexivity.
Qed.

(** C6, amended. Two runs over the same store, the first starting without
    a prediction log: each run adds 2 * min(10, rows of the merged frame)
    rows to the log, which is 20 when at least ten rows are merged.  If
    the first run completes, so does the second, and its summary is the
    first one with the Timestamp column set to the second run's clock
    string; the two summaries are equal when both runs read the same
    clock string. *)
Theorem two_runs_over_same_store
    (df : frame) (ts1 ts2 t1 t2 : string) (h : F64.float) (fs : files) :
  pred_file fs = None ->
  select_snapshots df = Ok (t1, t2) ->
  hours_elapsed t1 t2 = Ok h ->
  let n := Nat.min 10 (List.length (merged df t1 t2 h)) in
  let r1 := run df ts1 fs in
  let r2 := run df ts2 (fst r1) in
  rows_of (pred_file (fst r1)) = (2 * n)%nat
  /\ rows_of (pred_file (fst r2)) = (rows_of (pred_file (fst r1)) + 2 * n)%nat
  /\ (snd r1 = Ok tt ->
      snd r2 = Ok tt
      /\ exists s1, summary_file (fst r1) = Some s1
                    /\ summary_file (fst r2) = Some (map (restamp ts2) s1))
  /\ (ts1 = ts2 -> summary_file (fst r2) = summary_file (fst r1)).
Proof.
  intros Hnone Hsel Hh. cbv zeta. unfold run. rewrite Hsel, Hh.
  rewrite (predictions_restamp ts1 ts2), summary_restamp.
  pose proof (predictions_length ts1 (merged df t1 t2 h)) as L1.
  assert (L2 : List.length (map (restamp_prediction ts2)
                              (predictions ts1 (merged df t1 t2 h)))
               = (2 * Nat.min 10 (List.length (merged df t1 t2 h)))%nat)
    by now rewrite length_map.
  set (ps := predictions ts1 (merged df t1 t2 h)) in *.
  set (ps' := map (restamp_prediction ts2) ps) in *.
  assert (E : ts1 = ts2 -> ps' = ps).
  { intros <-. subst ps' ps. now rewrite <- predictions_restamp. }
  destruct (summary ps) as [rows|e] eqn:S; cbn [fst snd];
    unfold write_summary, append_predictions;
    cbn [pred_file summary_file]; rewrite Hnone;
    cbn [rows_of]; rewrite ?length_app.
  - repeat split; try lia.
    + exists rows. now split.
    + intros Hts. f_equal.
      specialize (E Hts). subst ps'.
      assert (H : summary (map (restamp_prediction ts2) ps) = Ok rows)
        by (rewrite E; exact S).
      rewrite summary_restamp, S in H. now injection H.
  - repeat split; try lia; congruence.
Qed.

Lemma two_runs_over_same_store_witness :
  let r1 := run store_unchanged "2025-08-16 10:05:00" no_files in
  let r2 := run store_unchanged "2025-08-16 10:06:00" (fst r1) in
  rows_of (pred_file (fst r1)) = 4%nat
  /\ rows_of (pred_file (fst r2)) = (rows_of (pred_file (fst r1)) + 4)%nat.
Proof.
  cbv zeta.
  destruct (two_runs_over_same_store store_unchanged
              "2025-08-16 10:05:00" "2025-08-16 10:06:00" t_0900 t_1000
              (F64.of_Z 1) no_files eq_refl eq_refl eq_refl)
    as (H1 & H2 & _).
  split; [exact H1 | exact H2].
Defined.

(** ** The calendar: later fields give later instants *)

Module Calendar.

Import Timestamp.

Lemma leap_step y :
  days_before_year (y + 1)
  = days_before_year y + 365 + (if is_leap y then 1 else 0).
Proof.
  unfold days_before_year, is_leap.
  replace (y + 1 - 1) with y by lia.
  destruct (y mod 4 =? 0) eqn:E4; destruct (y mod 100 =? 0) eqn:E100;
    destruct (y mod 400 =? 0) eqn:E400; cbn [andb orb negb];
    rewrite ?Z.eqb_eq, ?Z.eqb_neq in *;
    Z.div_mod_to_equations; lia.
Qed.

Lemma days_before_year_mono a b :
  a <= b -> days_before_year a <= days_before_year b.
Proof. unfold days_before_year. Z.div_mod_to_equations. lia. Qed.

Lemma month_cases m :
  1 <= m <= 12 ->
  m = 1 \/ m = 2 \/ m = 3 \/ m = 4 \/ m = 5 \/ m = 6 \/ m = 7
  \/ m = 8 \/ m = 9 \/ m = 10 \/ m = 11 \/ m = 12.
Proof. lia. Qed.

Ltac each_month H :=
  destruct (month_cases _ H) as
    [->|[->|[->|[->|[->|[->|[->|[->|[->|[->|[->| ->]]]]]]]]]]].

Lemma day_of_year_bound y m d :
  1 <= m <= 12 -> 1 <= d <= days_in_month y m ->
  0 <= days_before_month y m + (d - 1)
       < 365 + (if is_leap y then 1 else 0).
Proof.
  intros Hm. each_month Hm; unfold days_in_month, days_before_month;
    destruct (is_leap y); lia.
Qed.

Lemma month_step y m m' d :
  1 <= m <= 12 -> 1 <= m' <= 12 -> m < m' ->
  1 <= d <= days_in_month y m ->
  days_before_month y m + (d - 1) < days_before_month y m'.
Proof.
  intros Hm Hm'. each_month Hm; each_month Hm';
    unfold days_in_month, days_before_month;
    destruct (is_leap y); lia.
Qed.

Lemma valid_bounds f :
  valid f = true ->
  1 <= year f /\ 1 <= month f <= 12
  /\ 1 <= day f <= days_in_month (year f) (month f)
  /\ hour f <= 23 /\ minute f <= 59 /\ second f <= 59.
Proof.
  unfold valid. rewrite !andb_true_iff, !Z.leb_le. tauto.
Qed.

Lemma days_in_month_le_31 y m : days_in_month y m <= 31.
Proof.
  unfold days_in_month.
  destruct m as [|p|p]; try lia.
  do 4 (try destruct p as [p|p|]); try destruct (is_leap y); lia.
Qed.

Lemma instant_lt f g :
  natural f -> natural g -> valid f = true -> valid g = true ->
  stamp_key f < stamp_key g -> instant f < instant g.
Proof.
  intros Nf Ng Vf Vg.
  apply valid_bounds in Vf, Vg.
  destruct f as [y m d h n c], g as [y' m' d' h' n' c'].
  unfold natural, stamp_key, instant in *. cbn [year month day hour minute second] in *.
  destruct Vf as (Hy & Hm & Hd & Hh & Hn & Hc).
  destruct Vg as (Hy' & Hm' & Hd' & Hh' & Hn' & Hc').
  pose proof (days_in_month_le_31 y m).
  pose proof (days_in_month_le_31 y' m').
  pose proof (day_of_year_bound y m d Hm Hd).
  pose proof (day_of_year_bound y' m' d' Hm' Hd').
  intros Hk.
  assert (Hlex : y < y' \/ (y = y' /\ (m < m' \/ (m = m' /\ (d < d' \/
                 (d = d' /\ h * 3600 + n * 60 + c < h' * 3600 + n' * 60 + c'))))))
    by lia.
  destruct Hlex as [Hlt|[<- [Hlt|[<- [Hlt|[<- Hlt]]]]]].
  - pose proof (leap_step y).
    pose proof (days_before_year_mono (y + 1) y' ltac:(lia)).
    lia.
  - pose proof (month_step y m m' d Hm Hm' Hlt Hd). lia.
  - lia.
  - lia.
Qed.

Lemma base100_injective a b a' b' :
  0 <= b <= 99 -> 0 <= b' <= 99 -> a * 100 + b = a' * 100 + b' ->
  a = a' /\ b = b'.
Proof. lia. Qed.

Lemma key_injective f g :
  natural f -> natural g -> stamp_key f = stamp_key g -> f = g.
Proof.
  destruct f as [y m d h n c], g as [y' m' d' h' n' c'].
  unfold natural, stamp_key. cbn [year month day hour minute second].
  intros (_ & Hm & Hd & Hh & Hn & Hc) (_ & Hm' & Hd' & Hh' & Hn' & Hc') Hk.
  apply base100_injective in Hk; [|assumption..]. destruct Hk as [Hk ->].
  apply base100_injective in Hk; [|assumption..]. destruct Hk as [Hk ->].
  apply base100_injective in Hk; [|assumption..]. destruct Hk as [Hk ->].
  apply base100_injective in Hk; [|assumption..]. destruct Hk as [Hk ->].
  apply base100_injective in Hk; [|assumption..]. destruct Hk as [-> ->].
  reflexivity.
Qed.

(** Comparing the fourteen-digit numbers compares the instants. *)
Lemma key_compare f g :
  natural f -> natural g -> valid f = true -> valid g = true ->
  (stamp_key f ?= stamp_key g) = (instant f ?= instant g).
Proof.
  intros Nf Ng Vf Vg.
  destruct (Z.compare_spec (stamp_key f) (stamp_key g)) as [E|L|L].
  - rewrite (key_injective f g Nf Ng E). symmetry. apply Z.compare_refl.
  - symmetry. apply Z.compare_lt_iff. now apply instant_lt.
  - symmetry. apply Z.compare_gt_iff. now apply instant_lt.
Qed.

End Calendar.

(** ** Lexicographic order on timestamps in one format *)

Module StampOrder.

Import Timestamp Calendar.

Lemma digit_bounds c x : digit c = Some x -> 0 <= x <= 9.
Proof.
  unfold digit.
  destruct ((48 <=? Z.of_N (N_of_ascii c)) && (Z.of_N (N_of_ascii c) <=? 57)) eqn:E;
    [|discriminate].
  apply andb_true_iff in E. rewrite !Z.leb_le in E.
  intros [= <-]. lia.
Qed.

Lemma digit_compare a b x y :
  digit a = Some x -> digit b = Some y -> Ascii.compare a b = (x ?= y).
Proof.
  unfold digit, Ascii.compare.
  destruct (_ && _); [|discriminate]. intros [= <-].
  destruct (_ && _); [|discriminate]. intros [= <-].
  rewrite <- N2Z.inj_compare.
  destruct (Z.compare_spec (Z.of_N (N_of_ascii a)) (Z.of_N (N_of_ascii b)));
    symmetry;
    [apply Z.compare_eq_iff | apply Z.compare_lt_iff | apply Z.compare_gt_iff];
    lia.
Qed.

Lemma ascii_compare_refl a : Ascii.compare a a = Eq.
Proof. apply N.compare_refl. Qed.

Lemma bind_inv {A B} (o : option A) (k : A -> option B) b :
  bind o k = Some b -> exists a, o = Some a /\ k a = Some b.
Proof. destruct o as [a|]; [|discriminate]. intros H. now exists a. Qed.

Lemma num2_inv a b v :
  num2 a b = Some v ->
  exists x y, digit a = Some x /\ digit b = Some y /\ v = 10 * x + y.
Proof.
  unfold num2. intros H.
  apply bind_inv in H. destruct H as (x & Hx & H).
  apply bind_inv in H. destruct H as (y & Hy & H).
  injection H as <-. now exists x, y.
Qed.

Lemma num4_inv a b c d v :
  num4 a b c d = Some v ->
  exists x y z w,
    digit a = Some x /\ digit b = Some y /\ digit c = Some z
    /\ digit d = Some w /\ v = 100 * (10 * x + y) + (10 * z + w).
Proof.
  unfold num4. intros H.
  apply bind_inv in H. destruct H as (p & Hp & H).
  apply bind_inv in H. destruct H as (q & Hq & H).
  injection H as <-.
  apply num2_inv in Hp, Hq.
  destruct Hp as (x & y & Hx & Hy & ->), Hq as (z & w & Hz & Hw & ->).
  now exists x, y, z, w.
Qed.

Ltac invert_num2 H :=
  apply num2_inv in H;
  let x := fresh "x" in let y := fresh "y" in
  let Dx := fresh "D" in let Dy := fresh "D" in
  destruct H as (x & y & Dx & Dy & ->).

Ltac invert_split H s :=
  do 19 (destruct s as [|? s]; [discriminate H|]);
  destruct s; [|discriminate H];
  unfold split in H;
  match type of H with
  | (if ?c then _ else _) = _ =>
      let E := fresh "E" in
      destruct c eqn:E; [|discriminate H];
      repeat (apply andb_true_iff in E; let E' := fresh "E" in destruct E as [E E']);
      repeat match goal with
             | E0 : Ascii.eqb _ _ = true |- _ => apply Ascii.eqb_eq in E0; subst
             end
  end;
  let Hy := fresh "Hy" in let Hm := fresh "Hm" in let Hd := fresh "Hd" in
  let Hh := fresh "Hh" in let Hn := fresh "Hn" in let Hc := fresh "Hc" in
  apply bind_inv in H; destruct H as (? & Hy & H);
  apply bind_inv in H; destruct H as (? & Hm & H);
  apply bind_inv in H; destruct H as (? & Hd & H);
  apply bind_inv in H; destruct H as (? & Hh & H);
  apply bind_inv in H; destruct H as (? & Hn & H);
  apply bind_inv in H; destruct H as (? & Hc & H);
  injection H as <- <-;
  apply num4_inv in Hy;
  destruct Hy as (? & ? & ? & ? & ? & ? & ? & ? & ->);
  invert_num2 Hm; invert_num2 Hd; invert_num2 Hh; invert_num2 Hn;
  invert_num2 Hc.

Lemma compare_split s t sep f g :
  split s = Some (sep, f) -> split t = Some (sep, g) ->
  String.compare s t = (stamp_key f ?= stamp_key g)
  /\ natural f /\ natural g.
Proof.
  intros Hs Ht.
  invert_split Hs s. 
  invert_split Ht t.
  repeat match goal with
         | D : digit _ = Some _ |- _ =>
             pose proof (digit_bounds _ _ D); revert D
         end.
  intros.
  split; [|split; unfold natural; cbn [year month day hour minute second]; lia].
  cbn [String.compare].
  repeat match goal with
         | |- context [Ascii.compare ?a ?b] =>
             first [ rewrite (digit_compare a b _ _ ltac:(eassumption) ltac:(eassumption))
                   | rewrite (ascii_compare_refl a) ]
         end.
  unfold stamp_key. cbn [year month day hour minute second].
  repeat match goal with
         | |- match (?x ?= ?y) with _ => _ end = _ =>
             destruct (Z.compare_spec x y);
             [ subst
             | symmetry; apply Z.compare_lt_iff; lia
             | symmetry; apply Z.compare_gt_iff; lia ]
         end.
  symmetry. apply Z.compare_refl.
Qed.

Lemma fixed_format_inv s :
  fixed_format s = true ->
  exists f, split s = Some (" "%char, f) /\ valid f = true
            /\ to_datetime s = Some (instant f).
Proof.
  unfold fixed_format, to_datetime.
  destruct (split s) as [[sep f]|]; [|discriminate].
  intros H. apply andb_true_iff in H. destruct H as [Hsep Hv].
  apply Ascii.eqb_eq in Hsep. subst sep.
  exists f. cbn [bind]. rewrite Hv. now repeat split.
Qed.

(** On timestamps in the store's format the lexicographic order of the
    strings is the chronological order of the instants. *)
Lemma fixed_compare s t :
  fixed_format s = true -> fixed_format t = true ->
  exists a b,
    to_datetime s = Some a /\ to_datetime t = Some b
    /\ String.compare s t = (a ?= b).
Proof.
  intros Hs Ht.
  apply fixed_format_inv in Hs, Ht.
  destruct Hs as (f & Sf & Vf & Df), Ht as (g & Sg & Vg & Dg).
  exists (instant f), (instant g). repeat split; try assumption.
  destruct (compare_split s t _ f g Sf Sg) as (C & Nf & Ng).
  rewrite C. now apply Calendar.key_compare.
Qed.

End StampOrder.

(** ** The selector: sorted, distinct, the last two *)

Section Selector.

Let fixed (s : string) : Prop := Timestamp.fixed_format s = true.

Lemma fixed_leb s t :
  fixed s -> fixed t -> (String.leb s t = true <-> not_later s t).
Proof.
  intros Hs Ht.
  destruct (StampOrder.fixed_compare s t Hs Ht) as (a & b & Da & Db & C).
  unfold String.leb, not_later, instant_of. rewrite C, Da, Db.
  destruct (Z.compare_spec a b); split; intros; try lia; congruence.
Qed.

Lemma fixed_injective s t :
  fixed s -> fixed t -> instant_of s = instant_of t -> s = t.
Proof.
  intros Hs Ht.
  destruct (StampOrder.fixed_compare s t Hs Ht) as (a & b & Da & Db & C).
  unfold instant_of. rewrite Da, Db. intros <-.
  rewrite Z.compare_refl in C. now apply String.compare_eq_iff.
Qed.

Lemma insert_sorted_chronological x l :
  fixed x -> Forall fixed l ->
  StronglySorted not_later l -> StronglySorted not_later (insert_sorted x l).
Proof.
  intros Hx. induction l as [|y r IH]; simpl; intros Hf Hs.
  - repeat constructor.
  - inversion Hf as [|? ? Hy Hr]; subst.
    inversion Hs as [|? ? Hsr Hall]; subst.
    destruct (String.leb x y) eqn:E.
    + constructor; [assumption|].
      apply (fixed_leb x y Hx Hy) in E.
      constructor; [assumption|].
      eapply Forall_impl; [|exact Hall].
      unfold not_later in *. intros z Hz. lia.
    + constructor; [now apply IH|].
      apply Forall_forall. intros z Hz.
      apply insert_sorted_In in Hz. destruct Hz as [->|Hz].
      * destruct (String.leb_total x y) as [T|T]; [congruence|].
        now apply (fixed_leb y x Hy Hx).
      * rewrite Forall_forall in Hall. now apply Hall.
Qed.

Lemma sort_chronological l :
  Forall fixed l -> StronglySorted not_later (sort l).
Proof.
  induction l as [|x r IH]; simpl; intros Hf; [constructor|].
  inversion Hf as [|? ? Hx Hr]; subst.
  apply insert_sorted_chronological.
  - exact Hx.
  - apply Forall_forall. intros z Hz. rewrite sort_In in Hz.
    rewrite Forall_forall in Hr. now apply Hr.
  - now apply IH.
Qed.

Lemma unique_NoDup l : NoDup (unique l).
Proof.
  induction l as [|x r IH]; simpl; [constructor|].
  constructor.
  - rewrite filter_In. intros [_ H].
    now rewrite String.eqb_refl in H.
  - now apply NoDup_filter.
Qed.

Lemma insert_sorted_NoDup x l :
  ~ In x l -> NoDup l -> NoDup (insert_sorted x l).
Proof.
  induction l as [|y r IH]; simpl; intros Hx Hn.
  - repeat constructor. tauto.
  - destruct (String.leb x y).
    + constructor; assumption.
    + inversion Hn; subst. constructor.
      * rewrite insert_sorted_In. intuition.
      * apply IH; tauto.
Qed.

Lemma sort_NoDup l : NoDup l -> NoDup (sort l).
Proof.
  induction l as [|x r IH]; simpl; intros Hn; [constructor|].
  inversion Hn; subst.
  apply insert_sorted_NoDup; [now rewrite sort_In | now apply IH].
Qed.

Lemma two_last_decompose (l : list string) :
  (2 <= List.length l)%nat -> exists l' a b, l = l' ++ [a; b].
Proof.
  intros H. rewrite <- (rev_involutive l).
  rewrite <- length_rev in H.
  destruct (rev l) as [|b [|a r]]; simpl in H; try lia.
  exists (rev r), a, b. simpl. now rewrite <- app_assoc.
Qed.

Lemma nth_two_last (l' : list string) a b d :
  let l := l' ++ [a; b] in
  nth (List.length l - 2) l d = a /\ nth (List.length l - 1) l d = b.
Proof.
  cbv zeta. rewrite length_app. simpl List.length.
  split.
  - rewrite app_nth2 by lia.
    replace (List.length l' + 2 - 2 - List.length l')%nat with 0%nat by lia.
    reflexivity.
  - rewrite app_nth2 by lia.
    replace (List.length l' + 2 - 1 - List.length l')%nat with 1%nat by lia.
    reflexivity.
Qed.

Lemma strongly_sorted_app (l m : list string) :
  StronglySorted not_later (l ++ m) ->
  forall x y, In x l -> In y m -> not_later x y.
Proof.
  induction l as [|z r IH]; simpl; intros Hs x y Hx Hy; [contradiction|].
  inversion Hs as [|? ? Hsr Hall]; subst.
  destruct Hx as [->|Hx].
  - rewrite Forall_forall in Hall. apply Hall, in_or_app. now right.
  - now apply IH.
Qed.

End Selector.

(** ** C9: the two most recent snapshots *)

(** C9. When every timestamp of the store is in the format
    "YYYY-MM-DD HH:MM:SS" and at least two of them are distinct, the
    selector returns timestamps [t_old] and [t_new] of the store with
    [t_old] strictly earlier than [t_new]; no snapshot is later than
    [t_new], and every snapshot earlier than [t_new] is no later than
    [t_old].  On such timestamps the lexicographic comparison of the
    strings, which the sort uses, is the comparison of the instants. *)
Theorem selector_returns_two_latest (df : frame) :
  (forall r, In r df -> Timestamp.fixed_format (timestamp r) = true) ->
  (2 <= List.length (unique (map timestamp df)))%nat ->
  exists t_old t_new a b,
    select_snapshots df = Ok (t_old, t_new)
    /\ In t_old (map timestamp df) /\ In t_new (map timestamp df)
    /\ Timestamp.to_datetime t_old = Some a
    /\ Timestamp.to_datetime t_new = Some b
    /\ a < b
    /\ (forall r, In r df -> instant_of (timestamp r) <= b)
    /\ (forall r, In r df -> instant_of (timestamp r) < b ->
                  instant_of (timestamp r) <= a)
    /\ (forall s t, In s (map timestamp df) -> In t (map timestamp df) ->
                    String.compare s t = (instant_of s ?= instant_of t)).
Proof.
  intros Hfix Hlen.
  assert (Hfixed : forall t, In t (map timestamp df) ->
                             Timestamp.fixed_format t = true).
  { intros t Ht. apply in_map_iff in Ht. destruct Ht as (r & <- & Hr). auto. }
  assert (Hall : Forall (fun s => Timestamp.fixed_format s = true)
                        (unique (map timestamp df))).
  { apply Forall_forall. intros t Ht. apply Hfixed. now apply unique_In. }
  pose proof (sort_chronological _ Hall) as Hsorted.
  pose proof (sort_NoDup _ (unique_NoDup (map timestamp df))) as Hnd.
  fold (latest_times df) in Hsorted, Hnd.
  rewrite <- latest_times_length in Hlen.
  destruct (two_last_decompose _ Hlen) as (l' & t1 & t2 & Hl).
  pose proof (nth_two_last l' t1 t2 EmptyString) as Hnth. cbv zeta in Hnth.
  rewrite <- Hl in Hnth. destruct Hnth as [N1 N2].
  assert (In1 : In t1 (map timestamp df))
    by (apply latest_times_In; rewrite Hl; apply in_or_app; right; now left).
  assert (In2 : In t2 (map timestamp df))
    by (apply latest_times_In; rewrite Hl; apply in_or_app; right; right; now left).
  pose proof (Hfixed _ In1) as F1. pose proof (Hfixed _ In2) as F2.
  destruct (StampOrder.fixed_compare t1 t2 F1 F2) as (a & b & Da & Db & C).
  assert (Ia : instant_of t1 = a) by (unfold instant_of; now rewrite Da).
  assert (Ib : instant_of t2 = b) by (unfold instant_of; now rewrite Db).
  assert (Hle : not_later t1 t2).
  { rewrite Hl in Hsorted.
    replace (l' ++ [t1; t2]) with ((l' ++ [t1]) ++ [t2]) in Hsorted
      by (rewrite <- app_assoc; reflexivity).
    apply (strongly_sorted_app _ _ Hsorted);
      [apply in_or_app; right; now left | now left]. }
  assert (Hne : t1 <> t2).
  { intros ->. rewrite Hl in Hnd.
    apply NoDup_remove_2 in Hnd. apply Hnd, in_or_app. right. now left. }
  assert (Hlt : a < b).
  { unfold not_later in Hle. rewrite Ia, Ib in Hle.
    assert (a <> b); [|lia].
    intros ->. apply Hne. apply fixed_injective; congruence. }
  assert (Hbefore : forall t, In t l' -> instant_of t <= a).
  { intros t Ht. rewrite <- Ia. rewrite Hl in Hsorted.
    apply (strongly_sorted_app _ _ Hsorted t t1 Ht). now left. }
  assert (Hcases : forall r, In r df ->
            In (timestamp r) l' \/ timestamp r = t1 \/ timestamp r = t2).
  { intros r Hr.
    assert (H : In (timestamp r) (latest_times df))
      by (apply latest_times_In; now apply in_map).
    rewrite Hl in H. apply in_app_or in H. simpl in H.
    intuition congruence. }
  exists t1, t2, a, b.
  split.
  { unfold select_snapshots. cbv zeta.
    assert (E : (List.length (latest_times df) <? 2)%nat = false)
      by (apply Nat.ltb_ge; exact Hlen).
    rewrite E, N1, N2. reflexivity. }
  repeat split; try assumption.
  - intros r Hr. destruct (Hcases r Hr) as [H|[E|E]].
    + specialize (Hbefore _ H). lia.
    + rewrite E. lia.
    + rewrite E. lia.
  - intros r Hr Hb. destruct (Hcases r Hr) as [H|[E|E]].
    + now apply Hbefore.
    + rewrite E. lia.
    + rewrite E in Hb. lia.
  - intros s t Hs Ht.
    destruct (StampOrder.fixed_compare s t (Hfixed s Hs) (Hfixed t Ht))
      as (x & y & Dx & Dy & Cxy).
    unfold instant_of. now rewrite Dx, Dy.
Qed.

Lemma selector_returns_two_latest_witness :
  exists t_old t_new a b,
    select_snapshots store_three = Ok (t_old, t_new)
    /\ In t_old (map timestamp store_three)
    /\ In t_new (map timestamp store_three)
    /\ Timestamp.to_datetime t_old = Some a
    /\ Timestamp.to_datetime t_new = Some b
    /\ a < b
    /\ (forall r, In r store_three -> instant_of (timestamp r) <= b)
    /\ (forall r, In r store_three -> instant_of (timestamp r) < b ->
                  instant_of (timestamp r) <= a)
    /\ (forall s t, In s (map timestamp store_three) ->
                    In t (map timestamp store_three) ->
                    String.compare s t = (instant_of s ?= instant_of t)).
Proof.
  apply (selector_returns_two_latest store_three).
  - intros r Hr. simpl in Hr.
    repeat (destruct Hr as [<-|Hr]; [vm_compute; reflexivity|]).
    contradiction.
  - vm_compute. lia.
Defined.

(** ** C2: the elapsed time is not checked *)

Lemma insert_sorted_Sorted x l :
  Sorted leb_rel l -> Sorted leb_rel (insert_sorted x l).
Proof.
  induction l as [|y r IH]; simpl; intros Hs.
  - repeat constructor.
  - destruct (String.leb x y) eqn:E.
    + constructor; [assumption | now constructor].
    + inversion Hs as [|? ? Hr Hhd]; subst.
      constructor; [now apply IH|].
      assert (Hyx : leb_rel y x)
        by (destruct (String.leb_total x y); [congruence | assumption]).
      destruct r as [|z r']; simpl.
      * now constructor.
      * destruct (String.leb x z); constructor; [assumption|].
        now inversion Hhd.
Qed.

Lemma sort_Sorted l : Sorted leb_rel (sort l).
Proof.
  induction l as [|x r IH]; simpl; [constructor|].
  now apply insert_sorted_Sorted.
Qed.

Lemma Sorted_last_two (l' : list string) a b :
  Sorted leb_rel (l' ++ [a; b]) -> leb_rel a b.
Proof.
  induction l' as [|x r IH]; simpl; intros Hs.
  - inversion Hs as [|? ? _ Hhd]; subst. now inversion Hhd.
  - inversion Hs; subst. now apply IH.
Qed.

Lemma select_snapshots_ordered df t1 t2 :
  select_snapshots df = Ok (t1, t2) -> String.compare t1 t2 = Lt.
Proof.
  unfold select_snapshots. cbv zeta.
  destruct (List.length (latest_times df) <? 2)%nat eqn:E; [discriminate|].
  apply Nat.ltb_ge in E.
  destruct (two_last_decompose _ E) as (l' & a & b & Hl).
  pose proof (nth_two_last l' a b EmptyString) as Hnth. cbv zeta in Hnth.
  rewrite <- Hl in Hnth. destruct Hnth as [N1 N2].
  rewrite N1, N2. intros [= <- <-].
  pose proof (sort_Sorted (unique (map timestamp df))) as Hs.
  pose proof (sort_NoDup _ (unique_NoDup (map timestamp df))) as Hnd.
  fold (latest_times df) in Hs, Hnd. rewrite Hl in Hs, Hnd.
  apply Sorted_last_two in Hs. unfold leb_rel, String.leb in Hs.
  destruct (String.compare a b) eqn:C; [|reflexivity|discriminate].
  apply String.compare_eq_iff in C. subst b.
  apply NoDup_remove_2 in Hnd. exfalso. apply Hnd, in_or_app. right. now left.
Qed.

Lemma summary_raises ps e : summary ps = Raise e -> e = DuplicateLabels.
Proof.
  unfold summary, reindex.
  destruct (labels_eqb _ _); [discriminate|].
  destruct (has_duplicates _); [|discriminate].
  now intros [= <-].
Qed.

Lemma div_by_zero x s :
  F64.isnan (F64.div x (S754_zero s)) = true
  \/ exists s', F64.div x (S754_zero s) = S754_infinity s'.
Proof. destruct x as [sx|sx| |sx m e]; simpl; eauto. Qed.

Lemma eqb_zero h : F64.eqb h F64.pzero = true -> exists s, h = S754_zero s.
Proof.
  destruct h as [s|s| |s m e]; try destruct s; cbv; try discriminate; eauto.
Qed.

Lemma delta_of_rates b h p :
  let d := delta_of b h p in
  delta_in_per_hr d = F64.div (to_float (delta_in d)) h
  /\ delta_out_per_hr d = F64.div (to_float (delta_out d)) h
  /\ net_delta_per_hr d = F64.div (to_float (net_delta d)) h.
Proof. destruct p. repeat split. Qed.

(** C2 as stated fails: the store that spells one instant in two ways
    gives zero hours elapsed, the run completes, and the hourly net rate
    of its entity is the quotient 500 / 0.0, an infinity. *)
Lemma zero_hours_run_completes :
  ~ (forall h,
       hours_elapsed t_1000 t_1000_iso = Ok h ->
       F64.eqb h F64.pzero = true ->
       exists e,
         snd (run store_same_instant "2025-08-16 10:05:00" no_files) = Raise e)
  /\ select_snapshots store_same_instant = Ok (t_1000, t_1000_iso)
  /\ hours_elapsed t_1000 t_1000_iso = Ok F64.pzero
  /\ map net_delta_per_hr
        (merged store_same_instant t_1000 t_1000_iso F64.pzero)
     = [S754_infinity false].
Proof.
  split.
  - intros H. destruct (H F64.pzero) as (e & He); try reflexivity.
    vm_compute in He. discriminate.
  - repeat split; vm_compute; reflexivity.
Qed.

(** C2, amended. The analyzer has no check on the elapsed time.  Once two
    snapshots are selected and their timestamps parse, the run does not
    stop on the interval (it completes, or stops later on duplicate
    labels), and every hourly rate is the IEEE quotient of its delta by
    the hours elapsed, whatever they are; with zero hours elapsed each
    net rate is NaN or an infinity.  When the two selected timestamps are
    in the store's format they are distinct instants in order, so the
    seconds elapsed are positive. *)
Theorem rates_divide_without_interval_check
    (df : frame) (t1 t2 ts : string) (fs : files) :
  select_snapshots df = Ok (t1, t2) ->
  (forall h, hours_elapsed t1 t2 = Ok h ->
     (snd (run df ts fs) = Ok tt \/ snd (run df ts fs) = Raise DuplicateLabels)
     /\ (forall d, In d (merged df t1 t2 h) ->
           delta_in_per_hr d = F64.div (to_float (delta_in d)) h
           /\ delta_out_per_hr d = F64.div (to_float (delta_out d)) h
           /\ net_delta_per_hr d = F64.div (to_float (net_delta d)) h)
     /\ (F64.eqb h F64.pzero = true ->
         forall d, In d (merged df t1 t2 h) ->
           F64.isnan (net_delta_per_hr d) = true
           \/ exists s, net_delta_per_hr d = S754_infinity s))
  /\ (Timestamp.fixed_format t1 = true -> Timestamp.fixed_format t2 = true ->
      exists a b,
        Timestamp.to_datetime t1 = Some a /\ Timestamp.to_datetime t2 = Some b
        /\ 0 < b - a
        /\ hours_elapsed t1 t2 = Ok (F64.div (F64.of_Z (b - a)) (F64.of_Z 3600))).
Proof.
  intros Hsel. split.
  - intros h Hh. split; [|split].
    + unfold run. rewrite Hsel, Hh.
      destruct (summary _) as [rows|e] eqn:S; cbn [snd]; [now left|].
      right. f_equal. eapply summary_raises; eassumption.
    + intros d Hd. apply merged_In in Hd. destruct Hd as (p & _ & ->).
      apply delta_of_rates.
    + intros Hz d Hd. apply merged_In in Hd. destruct Hd as (p & _ & ->).
      destruct (eqb_zero h Hz) as (s & ->).
      destruct (delta_of_rates (forallb matched (join (slice df t2) (slice df t1)))
                  (S754_zero s) p) as (_ & _ & ->).
      apply div_by_zero.
  - intros F1 F2.
    destruct (StampOrder.fixed_compare t1 t2 F1 F2) as (a & b & Da & Db & C).
    rewrite (select_snapshots_ordered df t1 t2 Hsel) in C.
    symmetry in C. change (a < b) in C.
    exists a, b. repeat split; try assumption; [lia|].
    unfold hours_elapsed. now rewrite Da, Db.
Qed.

Lemma rates_divide_without_interval_check_witness :
  exists a b,
    Timestamp.to_datetime t_0900 = Some a
    /\ Timestamp.to_datetime t_1000 = Some b
    /\ 0 < b - a
    /\ hours_elapsed t_0900 t_1000
       = Ok (F64.div (F64.of_Z (b - a)) (F64.of_Z 3600)).
Proof.
  refine (proj2 (rates_divide_without_interval_check store_three
                   t_0900 t_1000 t_1000 no_files _) _ _);
    vm_compute; reflexivity.
Defined.


(** * Further properties of the analyzer *)

(** ** The output files across a run *)

Lemma predictions_stamped ts m p :
  In p (predictions ts m) ->
  p_timestamp p = ts /\ (p_type p = "riser"%string \/ p_type p = "faller"%string).
Proof.
  unfold predictions. rewrite in_app_iff, !in_map_iff.
  intros [(d & <- & _)|(d & <- & _)]; simpl; auto.
Qed.

(** X11. The prediction log is append-only: a run keeps the rows the log
    already holds, in place, and adds rows stamped with the run's clock
    string and typed riser or faller; a log that does not exist stays
    absent or is created with such rows only. *)
Theorem prediction_log_is_append_only (df : frame) (ts : string) (fs : files) :
  exists new,
    (forall p, In p new ->
       p_timestamp p = ts
       /\ (p_type p = "riser"%string \/ p_type p = "faller"%string))
    /\ match pred_file fs with
       | Some old => pred_file (fst (run df ts fs)) = Some (old ++ new)
       | None => pred_file (fst (run df ts fs)) = None /\ new = []
                 \/ pred_file (fst (run df ts fs)) = Some new
       end.
Proof.
  unfold run.
  destruct (select_snapshots df) as [[t1 t2]|e].
  2:{ exists []. split; [intros p []|].
      cbn [fst]. destruct (pred_file fs); [now rewrite app_nil_r | now left]. }
  destruct (hours_elapsed t1 t2) as [h|e].
  2:{ exists []. split; [intros p []|].
      cbn [fst]. destruct (pred_file fs); [now rewrite app_nil_r | now left]. }
  exists (predictions ts (merged df t1 t2 h)).
  split; [intros p; apply predictions_stamped|].
  destruct (summary _) as [rows|e]; cbn [fst];
    unfold write_summary, append_predictions; cbn [pred_file];
    destruct (pred_file fs); auto.
Qed.

(** X14. A run that raises never touches the summary file, and unless the
    error is the one of [reindex] it leaves the prediction log as it was
    too. *)
Theorem failed_run_keeps_summary
    (df : frame) (ts : string) (fs : files) (e : error) :
  snd (run df ts fs) = Raise e ->
  summary_file (fst (run df ts fs)) = summary_file fs
  /\ (e <> DuplicateLabels -> fst (run df ts fs) = fs).
Proof.
  unfold run.
  destruct (select_snapshots df) as [[t1 t2]|e1]; [|now intros _].
  destruct (hours_elapsed t1 t2) as [h|e1]; [|now intros _].
  destruct (summary _) as [rows|e1] eqn:S; cbn [fst snd]; [discriminate|].
  intros [= <-]. split; [reflexivity|].
  intros H. elim H. eapply summary_raises; eassumption.
Qed.

Lemma failed_run_keeps_summary_witness :
  summary_file (fst (run store_three "2025-08-16 10:05:00" no_files))
  = summary_file no_files.
Proof.
  refine (proj1 (failed_run_keeps_summary store_three "2025-08-16 10:05:00"
                   no_files DuplicateLabels _)).
  vm_compute. reflexivity.
Defined.

(** ** The sign of the combined progress *)

Lemma fillna0_nonneg x : nonneg x -> nonneg (F64.fillna0 x).
Proof. destruct x as [s|s| |s m e]; simpl; tauto. Qed.

Lemma fillna0_not_nan x : F64.isnan (F64.fillna0 x) = false.
Proof. destruct x as [s|s| |s m e]; reflexivity. Qed.

Lemma sub_zero_r_sign x :
  nonneg x -> F64.isnan x = false ->
  F64.ltb (F64.sub x F64.pzero) F64.pzero = false
  /\ F64.isnan (F64.sub x F64.pzero) = false.
Proof.
  destruct x as [s|s| |s m e]; try destruct s; simpl; try tauto;
    intros _ _; split; reflexivity.
Qed.

Lemma sub_zero_l_sign x :
  nonneg x -> F64.isnan x = false ->
  F64.ltb F64.pzero (F64.sub F64.pzero x) = false
  /\ F64.isnan (F64.sub F64.pzero x) = false.
Proof.
  destruct x as [s|s| |s m e]; try destruct s; simpl; try tauto;
    intros _ _; split; reflexivity.
Qed.

(** X10. The combined Progress column carries the direction in its sign: for
    a record of the riser list it is never negative, for a record of the
    faller list never positive, and it is never missing, a missing score
    counting as 0. *)
Theorem signed_progress_follows_the_list
    (df : frame) (t1 t2 ts : string) (h : F64.float) :
  let m := merged df t1 t2 h in
  (forall d, In d (top_risers m) ->
     F64.ltb (signed_progress (riser ts d)) F64.pzero = false
     /\ F64.isnan (signed_progress (riser ts d)) = false)
  /\ (forall d, In d (top_droppers m) ->
       F64.ltb F64.pzero (signed_progress (faller ts d)) = false
       /\ F64.isnan (signed_progress (faller ts d)) = false).
Proof.
  cbv zeta. split; intros d Hd; apply nlargest_In, merged_In in Hd;
    destruct Hd as (p & _ & ->); unfold signed_progress; cbn [riser faller
      p_rise_progress p_drop_progress].
  - change (F64.fillna0 F64.nan) with F64.pzero.
    apply sub_zero_r_sign; [|apply fillna0_not_nan].
    rewrite delta_of_rise. apply fillna0_nonneg, progress_nonneg.
  - change (F64.fillna0 F64.nan) with F64.pzero.
    apply sub_zero_l_sign; [|apply fillna0_not_nan].
    rewrite delta_of_drop. apply fillna0_nonneg, progress_nonneg.
Qed.

(** ** Rows of the merged frame *)

Lemma join_covers_new (n : snapshot) (df2 df1 : frame) :
  In n df2 -> exists o, In (n, o) (join df2 df1).
Proof.
  intros Hn.
  destruct (filter (fun o => id o =? id n) df1) as [|r rs] eqn:E.
  - exists None. unfold join. apply in_flat_map. exists n.
    split; [assumption|]. rewrite E. now left.
  - exists (Some r). unfold join. apply in_flat_map. exists n.
    split; [assumption|]. rewrite E. now left.
Qed.

Lemma join_length (df2 df1 : frame) :
  (List.length df2 <= List.length (join df2 df1))%nat.
Proof.
  induction df2 as [|n r IH]; simpl; [lia|].
  rewrite length_app. fold (join r df1).
  destruct (filter (fun o => id o =? id n) df1); simpl; lia.
Qed.

(** X6. No row of the newer snapshot is lost by the join: each one yields a
    delta record with its id, its price and its two names joined by a
    space, and the merged frame has at least as many rows as the newer
    snapshot. *)
Theorem every_new_row_is_merged
    (df : frame) (t1 t2 : string) (h : F64.float) :
  (forall n, In n (slice df t2) ->
     exists d, In d (merged df t1 t2 h)
               /\ d_id d = id n
               /\ name d = (first_name n ++ " " ++ second_name n)%string
               /\ d_now_cost d = now_cost n)
  /\ (List.length (slice df t2) <= List.length (merged df t1 t2 h))%nat.
Proof.
  split.
  - intros n Hn.
    destruct (join_covers_new n _ (slice df t1) Hn) as (o & Ho).
    exists (delta_of (forallb matched (join (slice df t2) (slice df t1))) h (n, o)).
    split; [unfold merged; now apply in_map|]. now repeat split.
  - unfold merged. rewrite length_map. apply join_length.
Qed.

(** ** Integer deltas *)

Lemma wrap64_small z : - 2 ^ 63 <= z < 2 ^ 63 -> wrap64 z = z.
Proof.
  intros H. unfold wrap64.
  rewrite Z.mod_small by lia. lia.
Qed.

(** X7. While every row of the newer snapshot has a partner and the counters
    of both snapshots lie between 0 and 2^62, the deltas are integers
    computed without wrap-around: [delta_in] and [delta_out] are the
    differences of the counters and [net_delta] is their difference. *)
Theorem integer_deltas_are_exact
    (df : frame) (t1 t2 : string) (h : F64.float) :
  (forall n, In n (slice df t2) ->
             exists o, In o (slice df t1) /\ id o = id n) ->
  (forall r, In r df ->
             0 <= transfers_in_event r < 2 ^ 62
             /\ 0 <= transfers_out_event r < 2 ^ 62) ->
  forall d, In d (merged df t1 t2 h) ->
    exists n o,
      In n (slice df t2) /\ In o (slice df t1) /\ id o = id n
      /\ d_id d = id n
      /\ delta_in d = Int (transfers_in_event n - transfers_in_event o)
      /\ delta_out d = Int (transfers_out_event n - transfers_out_event o)
      /\ net_delta d
         = Int ((transfers_in_event n - transfers_in_event o)
                - (transfers_out_event n - transfers_out_event o)).
Proof.
  intros Hall Hb d Hd.
  apply merged_In in Hd. destruct Hd as ([n o] & Hp & ->).
  rewrite (all_matched _ _ Hall).
  destruct (join_In _ _ _ _ Hp) as [Hn Ho].
  destruct o as [r|].
  2:{ destruct (Hall n Hn) as (r & Hr & Heq). now elim (Ho r Hr). }
  destruct Ho as [Hr Heq].
  exists n, r. repeat split; try assumption.
  all: assert (Bn : In n df) by (unfold slice in Hn; now apply filter_In in Hn);
    assert (Br : In r df) by (unfold slice in Hr; now apply filter_In in Hr);
    destruct (Hb n Bn) as [? ?]; destruct (Hb r Br) as [? ?];
    unfold delta_of, old_cell;
    cbn [delta_in delta_out net_delta cell_sub];
    rewrite ?(wrap64_small (transfers_in_event n - transfers_in_event r)) by lia;
    rewrite ?(wrap64_small (transfers_out_event n - transfers_out_event r)) by lia;
    rewrite ?wrap64_small by lia; reflexivity.
Qed.

Lemma integer_deltas_are_exact_witness :
  exists n o,
    In n (slice store_three t_1000) /\ In o (slice store_three t_0900)
    /\ id o = id n
    /\ d_id (delta_of true (F64.of_Z 1)
               (player t_1000 2 "B" 0 200000, Some (player t_0900 2 "B" 0 0)))
       = id n
    /\ delta_in (delta_of true (F64.of_Z 1)
               (player t_1000 2 "B" 0 200000, Some (player t_0900 2 "B" 0 0)))
       = Int (transfers_in_event n - transfers_in_event o)
    /\ delta_out (delta_of true (F64.of_Z 1)
               (player t_1000 2 "B" 0 200000, Some (player t_0900 2 "B" 0 0)))
       = Int (transfers_out_event n - transfers_out_event o)
    /\ net_delta (delta_of true (F64.of_Z 1)
               (player t_1000 2 "B" 0 200000, Some (player t_0900 2 "B" 0 0)))
       = Int ((transfers_in_event n - transfers_in_event o)
              - (transfers_out_event n - transfers_out_event o)).
Proof.
  apply (integer_deltas_are_exact store_three t_0900 t_1000 (F64.of_Z 1)).
  - intros n Hn. vm_compute in Hn.
    destruct Hn as [<-|[<-|[<-|[]]]]; eexists; (split; [vm_compute|]).
    + left. reflexivity.
    + reflexivity.
    + right. left. reflexivity.
    + reflexivity.
    + right. right. left. reflexivity.
    + reflexivity.
  - intros r Hr. unfold store_three in Hr.
    repeat (destruct Hr as [<-|Hr]; [cbn; lia|]). contradiction.
  - vm_compute. right. left. reflexivity.
Defined.

(** ** Order of the doubles *)

Lemma leb_total x y :
  F64.isnan x = false -> F64.isnan y = false ->
  F64.leb x y = false -> F64.leb y x = true.
Proof.
  unfold F64.leb, SFleb, SFcompare.
  destruct x as [sx|sx| |sx mx ex], y as [sy|sy| |sy my ey];
    try discriminate; intros _ _;
    try destruct sx; try destruct sy; try (simpl; congruence).
  - change (Pos.compare_cont Eq mx my) with (mx ?= my)%positive.
    change (Pos.compare_cont Eq my mx) with (my ?= mx)%positive.
    rewrite (Z.compare_antisym ex ey), (Pos.compare_antisym mx my).
    destruct (ex ?= ey); simpl; try congruence.
    destruct (mx ?= my)%positive; simpl; congruence.
  - change (Pos.compare_cont Eq mx my) with (mx ?= my)%positive.
    change (Pos.compare_cont Eq my mx) with (my ?= mx)%positive.
    rewrite (Z.compare_antisym ex ey), (Pos.compare_antisym mx my).
    destruct (ex ?= ey); simpl; try congruence.
    destruct (mx ?= my)%positive; simpl; congruence.
Qed.

Ltac order_cases :=
  repeat match goal with
         | |- context [Pos.compare_cont Eq ?a ?b] =>
             change (Pos.compare_cont Eq a b) with (a ?= b)%positive
         end;
  repeat match goal with
         | |- context [(?a ?= ?b)%Z] => destruct (Z.compare_spec a b); subst
         end;
  repeat match goal with
         | |- context [(?a ?= ?b)%positive] =>
             destruct (Pos.compare_spec a b); subst
         end;
  simpl; intros; try reflexivity; try discriminate; try lia.

Lemma leb_trans x y z :
  F64.leb x y = true -> F64.leb y z = true -> F64.leb x z = true.
Proof.
  unfold F64.leb, SFleb, SFcompare.
  destruct x as [sx|sx| |sx mx ex], y as [sy|sy| |sy my ey],
    z as [sz|sz| |sz mz ez];
    try destruct sx; try destruct sy; try destruct sz;
    try (simpl; congruence);
    order_cases.
Qed.

(** ** Rankings are in descending order *)

Section RankingOrder.

Context {A : Type}.
Variable key : A -> F64.float.

Let present (a : A) : Prop := F64.isnan (key a) = false.

Lemma insert_desc_ranked x l :
  present x -> Forall present l ->
  StronglySorted (ranked key) l ->
  StronglySorted (ranked key) (insert_desc key x l).
Proof.
  intros Hx. induction l as [|y r IH]; simpl; intros Hp Hs.
  - repeat constructor.
  - inversion Hp as [|? ? Hy Hr]; subst.
    inversion Hs as [|? ? Hsr Hall]; subst.
    destruct (F64.leb (key y) (key x)) eqn:E.
    + constructor; [assumption|].
      constructor; [now right|].
      rewrite Forall_forall in *. intros z Hz.
      destruct (Hall z Hz) as [Hn|Hle].
      * specialize (Hr z Hz). unfold present in Hr. congruence.
      * right. eapply leb_trans; eassumption.
    + constructor; [now apply IH|].
      apply Forall_forall. intros z Hz.
      apply insert_desc_In in Hz. destruct Hz as [->|Hz].
      * right. now apply leb_total.
      * rewrite Forall_forall in Hall. now apply Hall.
Qed.

Lemma sort_desc_ranked l :
  Forall present l -> StronglySorted (ranked key) (sort_desc key l).
Proof.
  induction l as [|x r IH]; simpl; intros Hp; [constructor|].
  inversion Hp as [|? ? Hx Hr]; subst.
  apply insert_desc_ranked.
  - exact Hx.
  - apply Forall_forall. intros z Hz. rewrite sort_desc_In in Hz.
    rewrite Forall_forall in Hr. now apply Hr.
  - now apply IH.
Qed.

Lemma missing_ranked l :
  Forall (fun a => F64.isnan (key a) = true) l ->
  StronglySorted (ranked key) l.
Proof.
  induction 1 as [|x r Hx Hr IH]; constructor; [assumption|].
  eapply Forall_impl; [|exact Hr]. intros a Ha. now left.
Qed.

Lemma StronglySorted_append (R : A -> A -> Prop) (l m : list A) :
  StronglySorted R l -> StronglySorted R m ->
  (forall a b, In a l -> In b m -> R a b) ->
  StronglySorted R (l ++ m).
Proof.
  induction 1 as [|x r Hs IH Hall]; simpl; intros Hm Hc; [assumption|].
  constructor.
  - apply IH; [assumption|]. intros a b Ha Hb. apply Hc; [now right|assumption].
  - apply Forall_app. split; [assumption|].
    apply Forall_forall. intros b Hb. apply Hc; [now left|assumption].
Qed.

Lemma StronglySorted_cross (R : A -> A -> Prop) (l m : list A) :
  StronglySorted R (l ++ m) ->
  forall a b, In a l -> In b m -> R a b.
Proof.
  induction l as [|x r IH]; simpl; intros Hs a b Ha Hb; [contradiction|].
  inversion Hs as [|? ? Hsr Hall]; subst.
  destruct Ha as [->|Ha].
  - rewrite Forall_forall in Hall. apply Hall, in_or_app. now right.
  - now apply IH.
Qed.

Lemma StronglySorted_firstn (R : A -> A -> Prop) (n : nat) (l : list A) :
  StronglySorted R l -> StronglySorted R (firstn n l).
Proof.
  revert l. induction n as [|n IH]; intros l Hs; [constructor|].
  destruct l as [|x r]; [constructor|].
  inversion Hs as [|? ? Hsr Hall]; subst. simpl.
  constructor; [now apply IH|].
  apply Forall_forall. intros z Hz. apply firstn_subset in Hz.
  rewrite Forall_forall in Hall. now apply Hall.
Qed.

Lemma sort_values_desc_ranked l :
  StronglySorted (ranked key) (sort_values_desc key l).
Proof.
  unfold sort_values_desc. apply StronglySorted_append.
  - apply sort_desc_ranked. apply Forall_forall. intros a Ha.
    apply filter_In in Ha. destruct Ha as [_ Ha].
    unfold present. now destruct (F64.isnan (key a)).
  - apply missing_ranked. apply Forall_forall. intros a Ha.
    now apply filter_In in Ha.
  - intros a b _ Hb. left. now apply filter_In in Hb.
Qed.

Lemma insert_desc_Permutation x l :
  Permutation (insert_desc key x l) (x :: l).
Proof.
  induction l as [|y r IH]; simpl; [reflexivity|].
  destruct (F64.leb (key y) (key x)); [reflexivity|].
  rewrite IH. apply perm_swap.
Qed.

Lemma sort_desc_Permutation l : Permutation (sort_desc key l) l.
Proof.
  induction l as [|x r IH]; simpl; [reflexivity|].
  rewrite insert_desc_Permutation. now constructor.
Qed.

Lemma filter_split_Permutation (f : A -> bool) l :
  Permutation (filter (fun a => negb (f a)) l ++ filter f l) l.
Proof.
  induction l as [|x r IH]; simpl; [reflexivity|].
  destruct (f x); simpl.
  - rewrite <- Permutation_middle. now constructor.
  - now constructor.
Qed.

Lemma sort_values_desc_Permutation l :
  Permutation (sort_values_desc key l) l.
Proof.
  unfold sort_values_desc.
  rewrite sort_desc_Permutation. apply filter_split_Permutation.
Qed.

Lemma nlargest_ranked n l : StronglySorted (ranked key) (nlargest key n l).
Proof. apply StronglySorted_firstn, sort_values_desc_ranked. Qed.

Lemma nlargest_takes_the_largest n l :
  exists rest,
    Permutation (nlargest key n l ++ rest) l
    /\ forall a b, In a (nlargest key n l) -> In b rest -> ranked key a b.
Proof.
  exists (skipn n (sort_values_desc key l)). unfold nlargest. split.
  - rewrite firstn_skipn. apply sort_values_desc_Permutation.
  - apply StronglySorted_cross. rewrite firstn_skipn.
    apply sort_values_desc_ranked.
Qed.

End RankingOrder.

(** X8. The two top lists are rankings: each is in descending order of its
    score with missing scores last, and no record left out of a list has
    a score above a record in it. *)
Theorem top_lists_hold_the_largest
    (df : frame) (t1 t2 : string) (h : F64.float) :
  let m := merged df t1 t2 h in
  (exists rest,
     Permutation (top_risers m ++ rest) m
     /\ forall a b, In a (top_risers m) -> In b rest ->
                    ranked rise_progress a b)
  /\ (exists rest,
       Permutation (top_droppers m ++ rest) m
       /\ forall a b, In a (top_droppers m) -> In b rest ->
                      ranked drop_progress a b).
Proof.
  cbv zeta. split; apply nlargest_takes_the_largest.
Qed.

(** X9. Inside each top list the records stand in descending order of the
    score of the list, records with a missing score last. *)
Theorem top_lists_are_in_descending_order
    (df : frame) (t1 t2 : string) (h : F64.float) :
  let m := merged df t1 t2 h in
  StronglySorted (ranked rise_progress) (top_risers m)
  /\ StronglySorted (ranked drop_progress) (top_droppers m).
Proof.
  cbv zeta. split; apply nlargest_ranked.
Qed.

(** ** The summary when no entity is in both lists *)

Lemma labels_eqb_eq (a b : list Z) : labels_eqb a b = true -> a = b.
Proof.
  revert b. induction a as [|x a IH]; intros [|y b]; simpl;
    try discriminate; [reflexivity|].
  intros H. apply andb_true_iff in H. destruct H as [Hx Hr].
  apply Z.eqb_eq in Hx. subst. f_equal. now apply IH.
Qed.

Lemma reindex_distinct rows key :
  has_duplicates (map s_id rows) = false ->
  reindex rows (map s_id (sort_values_desc key rows))
  = Ok (sort_values_desc key rows).
Proof.
  intros Hd. pose proof (has_duplicates_NoDup _ Hd) as Hnd.
  assert (Hs : flat_map (fun k => filter (fun r => s_id r =? k) rows)
                 (map s_id (sort_values_desc key rows))
               = sort_values_desc key rows)
    by (apply lookup_all; [assumption | intros x; apply sort_values_desc_In]).
  unfold reindex. rewrite Hd.
  destruct (labels_eqb _ _) eqn:E; [|now rewrite Hs].
  apply labels_eqb_eq in E. f_equal.
  rewrite <- Hs, <- E. symmetry. apply lookup_all; auto.
Qed.

(** X12. When no entity sits in both top lists, the run completes and the
    summary holds every prediction record of the run exactly once, in
    descending order of the absolute combined progress as it is before
    the final rounding of the columns. *)
Theorem summary_of_distinct_entities
    (df : frame) (t1 t2 ts : string) (h : F64.float) (fs : files) :
  select_snapshots df = Ok (t1, t2) ->
  hours_elapsed t1 t2 = Ok h ->
  has_duplicates (map p_id (predictions ts (merged df t1 t2 h))) = false ->
  exists sorted,
    snd (run df ts fs) = Ok tt
    /\ summary_file (fst (run df ts fs)) = Some (map round_row sorted)
    /\ Permutation sorted (map project (predictions ts (merged df t1 t2 h)))
    /\ StronglySorted (ranked (fun r => F64.abs (s_progress r))) sorted.
Proof.
  intros Hsel Hh Hd.
  set (ps := predictions ts (merged df t1 t2 h)) in *.
  exists (sort_values_desc (fun r => F64.abs (s_progress r)) (map project ps)).
  assert (Hrows : has_duplicates (map s_id (map project ps)) = false)
    by (rewrite map_map; exact Hd).
  assert (Hsum : summary ps
                 = Ok (map round_row
                         (sort_values_desc (fun r => F64.abs (s_progress r))
                            (map project ps)))).
  { unfold summary. rewrite (reindex_distinct _ _ Hrows).
    rewrite firstn_all2; [reflexivity|].
    rewrite sort_values_desc_length, length_map.
    subst ps. rewrite predictions_length. lia. }
  unfold run. rewrite Hsel, Hh. fold ps. rewrite Hsum. cbn [fst snd].
  repeat split.
  - apply sort_values_desc_Permutation.
  - apply sort_values_desc_ranked.
Qed.

Lemma summary_of_distinct_entities_witness :
  exists sorted,
    snd (run store_twenty "2025-08-16 10:05:00" no_files) = Ok tt
    /\ summary_file (fst (run store_twenty "2025-08-16 10:05:00" no_files))
       = Some (map round_row sorted)
    /\ Permutation sorted
         (map project (predictions "2025-08-16 10:05:00"
                         (merged store_twenty t_0900 t_1000 (F64.of_Z 1))))
    /\ StronglySorted (ranked (fun r => F64.abs (s_progress r))) sorted.
Proof.
  apply (summary_of_distinct_entities store_twenty t_0900 t_1000);
    vm_compute; reflexivity.
Defined.

(** ** The selector on arbitrary timestamp strings *)

Lemma string_leb_trans (s t u : string) :
  String.leb s t = true -> String.leb t u = true -> String.leb s u = true.
Proof.
  revert t u. unfold String.leb.
  induction s as [|a s IH]; intros [|b t] [|c u]; simpl; try congruence.
  unfold Ascii.compare.
  destruct (N.compare_spec (N_of_ascii a) (N_of_ascii b)),
    (N.compare_spec (N_of_ascii b) (N_of_ascii c)),
    (N.compare_spec (N_of_ascii a) (N_of_ascii c));
    try lia; try congruence.
  apply IH.
Qed.

Lemma string_leb_refl (s : string) : String.leb s s = true.
Proof.
  unfold String.leb.
  pose proof (String.compare_antisym s s) as H.
  destruct (String.compare s s); simpl in H; congruence.
Qed.

Lemma sort_StronglySorted l : StronglySorted leb_rel (sort l).
Proof.
  apply Sorted_StronglySorted; [|apply sort_Sorted].
  intros s t u. apply string_leb_trans.
Qed.

Lemma select_snapshots_greatest (df : frame) (t_old t_new : string) :
  select_snapshots df = Ok (t_old, t_new) ->
  In t_old (map timestamp df) /\ In t_new (map timestamp df)
  /\ String.compare t_old t_new = Lt
  /\ (forall r, In r df -> String.leb (timestamp r) t_new = true)
  /\ (forall r, In r df -> timestamp r <> t_new ->
                String.leb (timestamp r) t_old = true).
Proof.
  intros Hsel.
  pose proof (select_snapshots_ordered df t_old t_new Hsel) as Hlt.
  revert Hsel. unfold select_snapshots. cbv zeta.
  destruct (List.length (latest_times df) <? 2)%nat eqn:E; [discriminate|].
  apply Nat.ltb_ge in E.
  destruct (two_last_decompose _ E) as (l' & a & b & Hl).
  pose proof (nth_two_last l' a b EmptyString) as Hnth. cbv zeta in Hnth.
  rewrite <- Hl in Hnth. destruct Hnth as [N1 N2].
  rewrite N1, N2. intros [= <- <-].
  pose proof (sort_StronglySorted (unique (map timestamp df))) as Hs.
  fold (latest_times df) in Hs. rewrite Hl in Hs.
  assert (Hab : String.leb a b = true)
    by (unfold String.leb; now rewrite Hlt).
  assert (Hcases : forall r, In r df ->
            In (timestamp r) l' \/ timestamp r = a \/ timestamp r = b).
  { intros r Hr.
    assert (H : In (timestamp r) (latest_times df))
      by (apply latest_times_In; now apply in_map).
    rewrite Hl in H. apply in_app_or in H. simpl in H.
    intuition congruence. }
  split; [apply latest_times_In; rewrite Hl; apply in_or_app; right; now left|].
  split; [apply latest_times_In; rewrite Hl; apply in_or_app; right; right;
          now left|].
  split; [assumption|].
  split.
  - intros r Hr. destruct (Hcases r Hr) as [H|[H|H]].
    + apply (StronglySorted_cross leb_rel l' [a; b] Hs); [assumption|].
      right. now left.
    + now rewrite H.
    + rewrite H. apply string_leb_refl.
  - intros r Hr Hne. destruct (Hcases r Hr) as [H|[H|H]].
    + apply (StronglySorted_cross leb_rel l' [a; b] Hs); [assumption|].
      now left.
    + rewrite H. apply string_leb_refl.
    + contradiction.
Qed.

(** X5. Whatever strings the timestamp column holds, the selector returns
    two distinct timestamps of the store in lexicographic order: the
    greatest string as the newer one and the greatest of the others as
    the older one. *)
Theorem selector_takes_the_two_greatest_strings
    (df : frame) (t_old t_new : string) :
  select_snapshots df = Ok (t_old, t_new) ->
  In t_old (map timestamp df) /\ In t_new (map timestamp df)
  /\ String.compare t_old t_new = Lt
  /\ (forall r, In r df -> String.leb (timestamp r) t_new = true)
  /\ (forall r, In r df -> timestamp r <> t_new ->
                String.leb (timestamp r) t_old = true).
Proof. apply select_snapshots_greatest. Qed.

Lemma selector_takes_the_two_greatest_strings_witness :
  In t_1000 (map timestamp store_same_instant)
  /\ In t_1000_iso (map timestamp store_same_instant)
  /\ String.compare t_1000 t_1000_iso = Lt
  /\ (forall r, In r store_same_instant ->
                String.leb (timestamp r) t_1000_iso = true)
  /\ (forall r, In r store_same_instant -> timestamp r <> t_1000_iso ->
                String.leb (timestamp r) t_1000 = true).
Proof.
  apply (selector_takes_the_two_greatest_strings store_same_instant).
  vm_compute. reflexivity.
Defined.

(** * Properties of the collector *)

Lemma collect_rows elements ts store :
  elements <> [] ->
  collect elements ts store
  = (Some (rows_in store ++ map (stamp ts) elements), None).
Proof.
  destruct elements as [|e es]; [congruence|]. intros _.
  unfold collect. destruct store; reflexivity.
Qed.

Lemma slice_app (a b : frame) (t : string) :
  slice (a ++ b) t = slice a t ++ slice b t.
Proof. apply filter_app. Qed.

Lemma slice_stamped_same ts elements :
  slice (map (stamp ts) elements) ts = map (stamp ts) elements.
Proof.
  unfold slice. induction elements as [|e es IH]; simpl; [reflexivity|].
  rewrite String.eqb_refl. now rewrite IH.
Qed.

Lemma slice_stamped_other ts t elements :
  t <> ts -> slice (map (stamp ts) elements) t = [].
Proof.
  intros Hne. unfold slice.
  induction elements as [|e es IH]; simpl; [reflexivity|].
  destruct (String.eqb ts t) eqn:E; [|assumption].
  apply String.eqb_eq in E. congruence.
Qed.

Lemma slice_absent (df : frame) (t : string) :
  (forall r, In r df -> timestamp r <> t) -> slice df t = [].
Proof.
  intros H. unfold slice. induction df as [|r rs IH]; simpl; [reflexivity|].
  destruct (String.eqb (timestamp r) t) eqn:E.
  - apply String.eqb_eq in E. elim (H r (or_introl eq_refl) E).
  - apply IH. intros x Hx. apply H. now right.
Qed.

(** X2. The collector keeps ids unique within a timestamp: if they are in
    the store, the API lists every id once and the clock string is not a
    timestamp of the store yet, they still are after the run. *)
Theorem collector_keeps_ids_unique
    (elements : list element) (ts : string) (store : option frame) :
  NoDup (map e_id elements) ->
  (forall r, In r (rows_in store) -> timestamp r <> ts) ->
  ids_unique_per_timestamp (rows_in store) ->
  ids_unique_per_timestamp (rows_in (fst (collect elements ts store))).
Proof.
  intros Hnd Hfresh Hinv.
  destruct elements as [|e es] eqn:El; [exact Hinv|]. rewrite <- El in *.
  rewrite collect_rows by (rewrite El; discriminate).
  cbn [fst rows_in]. intros t. rewrite slice_app.
  destruct (String.eqb t ts) eqn:E.
  - apply String.eqb_eq in E. subst t.
    rewrite slice_absent by assumption.
    rewrite slice_stamped_same. simpl. rewrite map_map. exact Hnd.
  - apply String.eqb_neq in E.
    rewrite slice_stamped_other by assumption.
    rewrite app_nil_r. apply Hinv.
Qed.

Lemma collector_keeps_ids_unique_witness :
  ids_unique_per_timestamp
    (rows_in (fst (collect two_elements t_1000 None))).
Proof.
  apply collector_keeps_ids_unique.
  - vm_compute. repeat constructor; simpl; intuition lia.
  - intros r [].
  - intros t. constructor.
Defined.

(** ** From the collector to the selector *)

Lemma two_distinct_timestamps (df : frame) (a b : string) :
  In a (map timestamp df) -> In b (map timestamp df) -> a <> b ->
  (2 <= List.length (latest_times df))%nat.
Proof.
  intros Ha Hb Hne.
  assert (Hnd : NoDup [a; b])
    by (repeat constructor; simpl; intuition congruence).
  apply (NoDup_incl_length Hnd).
  intros x [<-|[<-|[]]]; now apply latest_times_In.
Qed.

Lemma select_snapshots_total (df : frame) :
  (2 <= List.length (latest_times df))%nat ->
  exists t_old t_new, select_snapshots df = Ok (t_old, t_new).
Proof.
  intros H. unfold select_snapshots. cbv zeta.
  assert (E : (List.length (latest_times df) <? 2)%nat = false)
    by now apply Nat.ltb_ge.
  rewrite E. eauto.
Qed.

(** X3. After the collector has appended a snapshot under a clock string in
    the store's format that is later than every timestamp of a store in
    that format, the selector compares exactly this snapshot with the
    latest one the store held before. *)
Theorem newest_snapshot_is_selected
    (store : frame) (elements : list element) (ts : string) :
  store <> [] -> elements <> [] ->
  (forall r, In r store -> Timestamp.fixed_format (timestamp r) = true) ->
  Timestamp.fixed_format ts = true ->
  (forall r, In r store -> instant_of (timestamp r) < instant_of ts) ->
  exists df t_old,
    collect elements ts (Some store) = (Some df, None)
    /\ select_snapshots df = Ok (t_old, ts)
    /\ In t_old (map timestamp store)
    /\ (forall r, In r store ->
                  instant_of (timestamp r) <= instant_of t_old).
Proof.
  intros Hstore Hel Hfix Hts Hlate.
  set (df := store ++ map (stamp ts) elements).
  assert (Hin : forall r, In r df -> In r store \/ timestamp r = ts).
  { intros r Hr. apply in_app_or in Hr. destruct Hr as [Hr|Hr]; [now left|].
    apply in_map_iff in Hr. destruct Hr as (e & <- & _). now right. }
  assert (Hfixed : forall r, In r df ->
                             Timestamp.fixed_format (timestamp r) = true).
  { intros r Hr. destruct (Hin r Hr) as [H|H]; [auto | now rewrite H]. }
  assert (Hts_in : exists r, In r df /\ timestamp r = ts).
  { destruct elements as [|e es]; [congruence|].
    exists (stamp ts e). split; [|reflexivity].
    apply in_or_app. right. now left. }
  destruct Hts_in as (rn & Hrn & Trn).
  assert (Hex : exists r0, In r0 store)
    by (destruct store as [|r0 rs]; [congruence | exists r0; now left]).
  destruct Hex as (r0 & Hr0).
  assert (Hlen : (2 <= List.length (latest_times df))%nat).
  { apply (two_distinct_timestamps df (timestamp r0) ts).
    - apply in_map. apply in_or_app. now left.
    - rewrite <- Trn. now apply in_map.
    - intros E. specialize (Hlate r0 Hr0). rewrite E in Hlate. lia. }
  destruct (select_snapshots_total df Hlen) as (t1 & t2 & Hsel).
  destruct (select_snapshots_greatest df t1 t2 Hsel)
    as (In1 & In2 & Hlt & Hmax & Hnext).
  apply in_map_iff in In1, In2.
  destruct In1 as (r1 & T1 & Hr1), In2 as (r2 & T2 & Hr2).
  assert (E2 : t2 = ts).
  { destruct (Hin r2 Hr2) as [H|H]; [|congruence].
    exfalso. specialize (Hlate r2 H). rewrite T2 in Hlate.
    specialize (Hmax rn Hrn). rewrite Trn in Hmax.
    apply fixed_leb in Hmax; [|assumption|rewrite <- T2; auto].
    unfold not_later in Hmax. lia. }
  rewrite E2 in Hsel, Hlt, Hnext.
  assert (N1 : t1 <> ts).
  { intros E. rewrite E in Hlt.
    pose proof (String.compare_antisym ts ts) as R.
    rewrite Hlt in R. discriminate R. }
  assert (S1 : In r1 store).
  { destruct (Hin r1 Hr1) as [H|H]; [assumption|congruence]. }
  exists df, t1. split; [subst df; now apply collect_rows|].
  split; [assumption|].
  split; [rewrite <- T1; now apply in_map|].
  intros r Hr.
  assert (Hne : timestamp r <> ts).
  { intros E. specialize (Hlate r Hr). rewrite E in Hlate. lia. }
  assert (Hdf : In r df) by (apply in_or_app; now left).
  specialize (Hnext r Hdf Hne).
  apply fixed_leb in Hnext; [exact Hnext|auto|rewrite <- T1; auto].
Qed.

Lemma newest_snapshot_is_selected_witness :
  exists df t_old,
    collect two_elements t_1000 (Some store_single) = (Some df, None)
    /\ select_snapshots df = Ok (t_old, t_1000)
    /\ In t_old (map timestamp store_single)
    /\ (forall r, In r store_single ->
                  instant_of (timestamp r) <= instant_of t_old).
Proof.
  apply newest_snapshot_is_selected.
  - discriminate.
  - discriminate.
  - intros r Hr. simpl in Hr.
    destruct Hr as [<-|[<-|[]]]; vm_compute; reflexivity.
  - vm_compute. reflexivity.
  - intros r Hr. simpl in Hr.
    destruct Hr as [<-|[<-|[]]]; vm_compute; reflexivity.
Defined.

(** ** Prices *)

Lemma same_double_eq x y : same_double x y = true -> x = y.
Proof.
  destruct x as [a|a| |a m e], y as [b|b| |b n f]; simpl; try discriminate;
    try reflexivity.
  - intros H. apply Bool.eqb_prop in H. now subst.
  - intros H. apply Bool.eqb_prop in H. now subst.
  - intros H. apply andb_true_iff in H. destruct H as [H He].
    apply andb_true_iff in H. destruct H as [Hs Hm].
    apply Bool.eqb_prop in Hs. apply Pos.eqb_eq in Hm. apply Z.eqb_eq in He.
    now subst.
Qed.

Lemma tenths_survive_rounding :
  forallb
    (fun c => same_double
                (F64.round 1 (F64.div (F64.of_Z c) (F64.of_Z 10)))
                (F64.div (F64.of_Z c) (F64.of_Z 10)))
    (map Z.of_nat (seq 0 2001)) = true.
Proof. vm_compute. reflexivity. Qed.

(** X4. A price the collector stored, a number of tenths up to 2000 divided
    by 10, is left unchanged by the rounding to one decimal the summary
    applies to its Price column. *)
Theorem collected_price_survives_rounding (ts : string) (e : element) :
  0 <= e_now_cost e <= 2000 ->
  F64.round 1 (now_cost (stamp ts e)) = now_cost (stamp ts e).
Proof.
  intros H. cbn [stamp now_cost]. apply same_double_eq.
  pose proof tenths_survive_rounding as C.
  rewrite forallb_forall in C. apply C.
  rewrite <- (Z2Nat.id (e_now_cost e)) by lia.
  apply in_map, in_seq. lia.
Qed.

Lemma collected_price_survives_rounding_witness :
  F64.round 1 (now_cost (stamp t_1000 (mkElement 1 "A" "Doe" 55 1000 200 (F64.of_Z 3))))
  = now_cost (stamp t_1000 (mkElement 1 "A" "Doe" 55 1000 200 (F64.of_Z 3))).
Proof.
  apply collected_price_survives_rounding. simpl. lia.
Defined.

(** * A run that completes *)



